(** * Mutation network: result parser, graph builder and run orchestration

    A shallow embedding of the two TypeScript units of the mutation-network
    feature:

    - [MutationNetworkService.parseResultCsv]
      (mutation-network.service.ts), the CSV/TSV reader that turns the
      backend result into path steps, graph nodes and graph links;
    - [MutationNetwork.canStart], [onStart], [onDownload]
      (the component), the gate and the submit / download pipeline.

    Conventions of the embedding.

    - A JavaScript string is a [string]: a sequence of code units, here the
      code units 0..255 (the Latin-1 range).  [trim], [toLowerCase] and
      [parseInt] are the ECMAScript functions restricted to that range.
    - A JavaScript number holding a column position or a node index is a
      [Z].  A cost, which comes out of [parseInt], is a [Number]: an
      integer-valued double or an infinity.  [parseInt] reads the integer
      of the digits and rounds it to the nearest double, ties to even, as
      the conversion of a mathematical value to a Number does; an engine
      may, by the standard, ignore digits after the twentieth.  The
      negative zero is not told from zero.
    - [undefined] is [None]; [NaN] is [None] in the result of [parseInt].
    - Arrays are lists; [push] appends at the end.  The [Set] of seen
      sequences is a [gset string]. *)

From Stdlib Require Import ZArith Ascii String.
From stdpp Require Import base list strings gmap.

Local Open Scope string_scope.
Local Open Scope Z_scope.

(** ** JavaScript string primitives *)

Module JsString.

Definition dquote : ascii := "034"%char.
Definition tab : ascii := "009"%char.
Definition newline : ascii := "010"%char.
Definition comma : ascii := ","%char.

(** WhiteSpace and LineTerminator code units below 256: TAB, LF, VT, FF,
    CR, SP and NBSP.  This is the set [String.prototype.trim] and
    [parseInt] strip. *)
Definition isWhiteSpace (c : ascii) : bool :=
  let n := N_of_ascii c in
  ((9 <=? n) && (n <=? 13) || (n =? 32) || (n =? 160))%N.

Fixpoint trimStart (s : string) : string :=
  match s with
  | EmptyString => EmptyString
  | String c s' => if isWhiteSpace c then trimStart s' else s
  end.

Fixpoint trimEnd (s : string) : string :=
  match s with
  | EmptyString => EmptyString
  | String c s' =>
      match trimEnd s' with
      | EmptyString => if isWhiteSpace c then EmptyString else String c EmptyString
      | t => String c t
      end
  end.

(** [s.trim()] *)
Definition trim (s : string) : string := trimEnd (trimStart s).

(** Truthiness of a string: [!!s], [if (s)], [s || t]. *)
Definition truthy (s : string) : bool :=
  match s with EmptyString => false | String _ _ => true end.

(** [s.includes(c)] for a one-character needle. *)
Fixpoint includes (s : string) (c : ascii) : bool :=
  match s with
  | EmptyString => false
  | String d s' => Ascii.eqb d c || includes s' c
  end.

(** [s.split(c)] for a one-character separator: never the empty list. *)
Fixpoint split (s : string) (c : ascii) : list string :=
  match s with
  | EmptyString => [EmptyString]
  | String d s' =>
      if Ascii.eqb d c then EmptyString :: split s' c
      else match split s' c with
           | [] => [String d EmptyString]
           | h :: t => String d h :: t
           end
  end.

(** [toLowerCase] on one code unit: A-Z, and the Latin-1 capitals
    U+00C0..U+00DE without the multiplication sign U+00D7. *)
Definition lowerChar (c : ascii) : ascii :=
  let n := N_of_ascii c in
  if ((65 <=? n) && (n <=? 90)
      || (192 <=? n) && (n <=? 222) && negb (n =? 215))%N
  then ascii_of_N (n + 32) else c.

Fixpoint toLowerCase (s : string) : string :=
  match s with
  | EmptyString => EmptyString
  | String c s' => String (lowerChar c) (toLowerCase s')
  end.

(** [s.replace(/^"|"$/g, '')]: the first alternative can only match at
    position 0, the second only on the last code unit of what is left. *)
Fixpoint dropLastQuote (s : string) : string :=
  match s with
  | EmptyString => EmptyString
  | String c EmptyString => if Ascii.eqb c dquote then EmptyString else s
  | String c s' => String c (dropLastQuote s')
  end.

Definition stripQuotes (s : string) : string :=
  match s with
  | EmptyString => EmptyString
  | String c s' => if Ascii.eqb c dquote then dropLastQuote s' else dropLastQuote s
  end.

(** [xs.findIndex(p)]: the first position satisfying [p], or -1. *)
Fixpoint findIndexFrom {A} (p : A -> bool) (xs : list A) (i : Z) : Z :=
  match xs with
  | [] => -1
  | x :: xs' => if p x then i else findIndexFrom p xs' (i + 1)
  end.

Definition findIndex {A} (p : A -> bool) (xs : list A) : Z :=
  findIndexFrom p xs 0.

(** [xs[i]] for a number [i]: [undefined] out of range. *)
Definition at_ {A} (xs : list A) (i : Z) : option A :=
  if i <? 0 then None else xs !! Z.to_nat i.

(** [x ?? d] *)
Definition orElse {A} (x : option A) (d : A) : A :=
  match x with Some a => a | None => d end.

(** A number that is not [NaN] and has no fraction: an integer-valued
    double, or an infinity. *)
Inductive Number :=
  | Num (z : Z)
  | PosInfinity
  | NegInfinity.

Coercion Num : Z >-> Number.

(** The integer nearest to [a >= 0] that has at most 53 significant bits,
    ties going to the even one. *)
Definition roundToPrecision (a : Z) : Z :=
  let shift := Z.log2 a - 52 in
  if shift <=? 0 then a
  else
    let q := Z.shiftr a shift in
    let rem := a - Z.shiftl q shift in
    let half := Z.shiftl 1 (shift - 1) in
    let q' := if (half <? rem) || ((rem =? half) && Z.odd q) then q + 1 else q in
    Z.shiftl q' shift.

(** The Number for a mathematical integer: the nearest double, an
    infinity from 2^1024 on. *)
Definition toNumber (z : Z) : Number :=
  let r := roundToPrecision (Z.abs z) in
  if 2 ^ 1024 <=? r then (if z <? 0 then NegInfinity else PosInfinity)
  else Num (Z.sgn z * r).

(** Decimal digit value of a code unit. *)
Definition digitValue (c : ascii) : option Z :=
  let n := N_of_ascii c in
  if ((48 <=? n) && (n <=? 57))%N then Some (Z.of_N n - 48) else None.

(** The longest prefix of decimal digits, read left to right; [seen]
    records whether at least one digit was consumed. *)
Fixpoint readDigits (s : string) (seen : bool) (acc : Z) : option Z :=
  match s with
  | EmptyString => if seen then Some acc else None
  | String c s' =>
      match digitValue c with
      | Some d => readDigits s' true (10 * acc + d)
      | None => if seen then Some acc else None
      end
  end.

(** [parseInt(s, 10)]: skip leading white space, read an optional sign,
    then the longest run of digits; [None] stands for [NaN]. *)
Definition parseInt (s : string) : option Number :=
  match trimStart s with
  | String "-" s' => (fun m => toNumber (- m)) <$> readDigits s' false 0
  | String "+" s' => toNumber <$> readDigits s' false 0
  | s' => toNumber <$> readDigits s' false 0
  end.

(** [n || 0] on the result of [parseInt]: [NaN] and zero both give 0. *)
Definition orZero (n : option Number) : Number :=
  match n with
  | None => Num 0
  | Some (Num z) => if z =? 0 then Num 0 else Num z
  | Some inf => inf
  end.

(** [xs.join(' ')] *)
Fixpoint joinSpace (xs : list string) : string :=
  match xs with
  | [] => EmptyString
  | [x] => x
  | x :: xs' => x +:+ " " +:+ joinSpace xs'
  end.

End JsString.

(** ** mutation-network.service.ts *)

Module Service.
Import JsString.

(** One step in the mutation path (backend CSV row). *)
Record MutationPathStep := mkStep {
  fromSequence : string;
  toSequence : string;
  transitionCost : Number
}.

(** Graph node for visualization. *)
Record MutationNetworkNode := mkNode {
  id : string;
  sequence : string;
  index : Z
}.

(** Graph link for visualization. *)
Record MutationNetworkLink := mkLink {
  source : string;
  target : string;
  cost : Number
}.

(** Parsed path and graph data from backend result. *)
Record MutationNetworkGraphData := mkGraphData {
  steps : list MutationPathStep;
  nodes : list MutationNetworkNode;
  links : list MutationNetworkLink
}.

Record MutationNetworkParams := mkParams {
  input_path : string;
  start_node : string;
  end_node : string;
  max_cost : Z;
  output_format : string
}.

(** [content.split('\n').filter(line => line.trim())] *)
Definition nonBlankLines (content : string) : list string :=
  List.filter (fun line => truthy (trim line)) (split content newline).

(** [lines[0].includes('\t') ? '\t' : ','] *)
Definition detectSep (header : string) : ascii :=
  if includes header tab then tab else comma.

(** [lines[0].split(sep).map(h => h.replace(/^"|"$/g, '').trim().toLowerCase())] *)
Definition headerTokens (header : string) (sep : ascii) : list string :=
  List.map (fun h => toLowerCase (trim (stripQuotes h))) (split header sep).

(** [headers.findIndex(h => h === name) >= 0 ? headers.findIndex(h => h === name) : dflt] *)
Definition resolveColumn (headers : list string) (name : string) (dflt : Z) : Z :=
  if 0 <=? findIndex (String.eqb name) headers
  then findIndex (String.eqb name) headers
  else dflt.

Definition fromIdxOf (headers : list string) : Z := resolveColumn headers "from_sequence" 0.
Definition toIdxOf (headers : list string) : Z := resolveColumn headers "to_sequence" 1.
Definition costIdxOf (headers : list string) : Z := resolveColumn headers "transition_cost" 2.

(** The three loop variables of the [parseRow] closure. *)
Record RowState := mkRow {
  result : list string;
  inQuotes : bool;
  current : string
}.

(** One iteration of the character loop of [parseRow]. *)
Definition parseRowStep (sep : ascii) (st : RowState) (c : ascii) : RowState :=
  if Ascii.eqb c dquote then
    mkRow (result st) (negb (inQuotes st)) (current st)
  else if Ascii.eqb c sep && negb (inQuotes st) then
    mkRow (result st ++ [trim (current st)]) (inQuotes st) EmptyString
  else
    mkRow (result st) (inQuotes st) (current st +:+ String c EmptyString).

(** The loop of [parseRow] from an arbitrary state, then the final push. *)
Definition parseRowLoop (sep : ascii) (st : RowState) (line : string) : RowState :=
  fold_left (parseRowStep sep) (list_ascii_of_string line) st.

Definition parseRowFrom (sep : ascii) (st : RowState) (line : string) : list string :=
  let st' := parseRowLoop sep st line in
  result st' ++ [trim (current st')].

Definition parseRow (sep : ascii) (line : string) : list string :=
  parseRowFrom sep (mkRow [] false EmptyString) line.

(** [cols[fromIdx] ?? ''], [cols[toIdx] ?? ''] *)
Definition field (cols : list string) (i : Z) : string := orElse (at_ cols i) EmptyString.

(** [parseInt(cols[costIdx] ?? '0', 10) || 0] *)
Definition costOf (cols : list string) (costIdx : Z) : Number :=
  orZero (parseInt (orElse (at_ cols costIdx) "0")).

(** The body of the data-row loop: the step a line contributes, if any. *)
Definition rowStep (sep : ascii) (fromIdx toIdx costIdx : Z) (line : string)
  : option MutationPathStep :=
  let cols := parseRow sep line in
  let fromSeq := field cols fromIdx in
  let toSeq := field cols toIdx in
  let cost := costOf cols costIdx in
  if truthy fromSeq && truthy toSeq then Some (mkStep fromSeq toSeq cost) else None.

(** One iteration of [for (let i = 1; i < lines.length; i++)]. *)
Definition pushRow (sep : ascii) (fromIdx toIdx costIdx : Z)
    (acc : list MutationPathStep) (line : string) : list MutationPathStep :=
  match rowStep sep fromIdx toIdx costIdx line with
  | Some s => acc ++ [s]
  | None => acc
  end.

Definition readRows (sep : ascii) (fromIdx toIdx costIdx : Z) (rows : list string)
  : list MutationPathStep :=
  fold_left (pushRow sep fromIdx toIdx costIdx) rows [].

(** The variables of the graph-building part: [nodes], [links], [seen], [idx]. *)
Record Builder := mkBuilder {
  b_nodes : list MutationNetworkNode;
  b_links : list MutationNetworkLink;
  b_seen : gset string;
  b_idx : Z
}.

(** [if (!seen.has(q)) { nodes.push({id: q, sequence: q, index: idx++}); seen.add(q); }] *)
Definition discover (q : string) (b : Builder) : Builder :=
  if decide (q ∈ b_seen b) then b
  else mkBuilder (b_nodes b ++ [mkNode q q (b_idx b)]) (b_links b)
                 ({[ q ]} ∪ b_seen b) (b_idx b + 1).

(** [if (steps.length > 0) { const first = steps[0]; ... }] *)
Definition seedFirst (ss : list MutationPathStep) (b : Builder) : Builder :=
  match ss with
  | [] => b
  | first :: _ => discover (fromSequence first) b
  end.

(** One iteration of [for (const s of steps)]. *)
Definition visitStep (b : Builder) (s : MutationPathStep) : Builder :=
  let b' := discover (toSequence s) b in
  mkBuilder (b_nodes b') (b_links b' ++ [mkLink (fromSequence s) (toSequence s) (transitionCost s)])
            (b_seen b') (b_idx b').

Definition buildGraph (ss : list MutationPathStep) : Builder :=
  fold_left visitStep ss (seedFirst ss (mkBuilder [] [] ∅ 0)).

Definition emptyGraphData : MutationNetworkGraphData := mkGraphData [] [] [].

Definition parseResultCsv (content : string) : MutationNetworkGraphData :=
  let lines := nonBlankLines content in
  if (length lines <? 2)%nat then emptyGraphData
  else
    let header := orElse (lines !! 0%nat) EmptyString in
    let sep := detectSep header in
    let headers := headerTokens header sep in
    let fromIdx := fromIdxOf headers in
    let toIdx := toIdxOf headers in
    let costIdx := costIdxOf headers in
    let ss := readRows sep fromIdx toIdx costIdx (drop 1 lines) in
    let b := buildGraph ss in
    mkGraphData ss (b_nodes b) (b_links b).

End Service.


(** ** The mutation-network component

    The component keeps its fields in [State].  The two HTTP calls of
    [ApiService] (not part of these sources) are taken as a [Backend]: for
    each request, what comes back and after how many milliseconds.  The
    rxjs pipeline of [onStart] is modelled operator by operator on
    one-shot observables, each a function from the world at subscription to
    a notification (a value or an error) and the world after it.  The run
    is followed to its completion without other UI events in between.
    [selectedFile], [fileName], the D3 rendering and the resize observers
    are not modelled. *)

Module Component.
Import JsString Service.

(** A value that may be a text or an array of texts, as [error.error.detail]
    is. *)
Inductive Message :=
  | Text (s : string)
  | Parts (xs : list string).

(** What reaches an error handler: rxjs's [TimeoutError], or any other
    error, with its [error.error?.detail] and its [error.message]
    ([None] when absent). *)
Inductive Failure :=
  | TimeoutError
  | OtherError (detail : option Message) (message : option string).

(** [{ status: string; result: string }] *)
Record RunResponse := mkResponse {
  status : string;
  result : string
}.

(** A downloaded blob, by the text [FileReader.readAsText] reads from it. *)
Definition Blob := string.

(** How a request ends: a response or an error after [after] milliseconds,
    or nothing at all. *)
Inductive Reply (A : Type) :=
  | Answers (after : Z) (value : A)
  | Fails (after : Z) (e : Failure)
  | Silent.
Arguments Answers {A} after value.
Arguments Fails {A} after e.
Arguments Silent {A}.

Record Backend := mkBackend {
  mutationNetwork : MutationNetworkParams -> Reply RunResponse;
  downloadFile : string -> Reply Blob
}.

Record State := mkState {
  uploadComplete : bool;
  savedFileName : string;
  startSequence : string;
  endSequence : string;
  maxDistance : Z;
  outputFormat : string;
  isProcessing : bool;
  processedFileName : string;
  graphData : option MutationNetworkGraphData;
  errorMessage : option Message
}.

(** What the component does to the outside, in order of occurrence. *)
Inductive Effect :=
  | CallRun (params : MutationNetworkParams)
  | CallDownload (filename : string)
  | ReadAsText (blob : Blob)
  | MarkForCheck
  | ScheduleRender
  | SaveFile (filename : string) (blob : Blob).

Record World := mkWorld {
  comp : State;
  log : list Effect
}.

Definition isNetworkCall (e : Effect) : bool :=
  match e with
  | CallRun _ | CallDownload _ => true
  | _ => false
  end.

Definition emit (e : Effect) (w : World) : World :=
  mkWorld (comp w) (log w ++ [e]).

(** The four signals' [set]. *)
Definition setIsProcessing (b : bool) (w : World) : World :=
  let s := comp w in
  mkWorld (mkState (uploadComplete s) (savedFileName s) (startSequence s) (endSequence s)
             (maxDistance s) (outputFormat s) b (processedFileName s) (graphData s)
             (errorMessage s)) (log w).

Definition setProcessedFileName (f : string) (w : World) : World :=
  let s := comp w in
  mkWorld (mkState (uploadComplete s) (savedFileName s) (startSequence s) (endSequence s)
             (maxDistance s) (outputFormat s) (isProcessing s) f (graphData s)
             (errorMessage s)) (log w).

Definition setGraphData (g : option MutationNetworkGraphData) (w : World) : World :=
  let s := comp w in
  mkWorld (mkState (uploadComplete s) (savedFileName s) (startSequence s) (endSequence s)
             (maxDistance s) (outputFormat s) (isProcessing s) (processedFileName s) g
             (errorMessage s)) (log w).

Definition setErrorMessage (m : option Message) (w : World) : World :=
  let s := comp w in
  mkWorld (mkState (uploadComplete s) (savedFileName s) (startSequence s) (endSequence s)
             (maxDistance s) (outputFormat s) (isProcessing s) (processedFileName s)
             (graphData s) m) (log w).

(** [get canStart()] *)
Definition canStart (s : State) : bool :=
  uploadComplete s
  && truthy (trim (savedFileName s))
  && truthy (trim (startSequence s))
  && truthy (trim (endSequence s))
  && negb (isProcessing s).

(** *** One-shot observables *)

Definition Obs (A : Type) : Type := World -> (A + Failure) * World.

(** An HTTP request: the call it makes when subscribed, and its reply. *)
Record Call (A : Type) := mkCall {
  request : Effect;
  reply : Reply A
}.
Arguments mkCall {A} request reply.
Arguments request {A} c.
Arguments reply {A} c.

(** [mutationService.run(params)], which is [api.mutationNetwork(params)]. *)
Definition run (api : Backend) (params : MutationNetworkParams) : Call RunResponse :=
  mkCall (CallRun params) (mutationNetwork api params).

(** [apiService.downloadFile(filename)] *)
Definition download (api : Backend) (filename : string) : Call Blob :=
  mkCall (CallDownload filename) (downloadFile api filename).

(** [timeout(limit)] on a request: a reply that takes longer than [limit]
    milliseconds, or never comes, is replaced by a [TimeoutError]. *)
Definition settle {A} (limit : Z) (r : Reply A) : A + Failure :=
  match r with
  | Answers t v => if limit <? t then inr TimeoutError else inl v
  | Fails t e => if limit <? t then inr TimeoutError else inr e
  | Silent => inr TimeoutError
  end.

Definition timeout {A} (limit : Z) (c : Call A) : Obs A :=
  fun w => (settle limit (reply c), emit (request c) w).

(** [of(v)] *)
Definition of_ {A} (v : A) : Obs A := fun w => (inl v, w).

(** [tap(f)] *)
Definition tap {A} (f : A -> World -> World) (o : Obs A) : Obs A :=
  fun w =>
    match o w with
    | (inl v, w') => (inl v, f v w')
    | (inr e, w') => (inr e, w')
    end.

(** [switchMap(k)] *)
Definition switchMap {A B} (k : A -> Obs B) (o : Obs A) : Obs B :=
  fun w =>
    match o w with
    | (inl v, w') => k v w'
    | (inr e, w') => (inr e, w')
    end.

(** [catchError(h)] *)
Definition catchError {A} (h : Failure -> Obs A) (o : Obs A) : Obs A :=
  fun w =>
    match o w with
    | (inl v, w') => (inl v, w')
    | (inr e, w') => h e w'
    end.

(** [finalize(f)] *)
Definition finalize {A} (f : World -> World) (o : Obs A) : Obs A :=
  fun w => let (r, w') := o w in (r, f w').

(** [.subscribe()] *)
Definition subscribe {A} (o : Obs A) (w : World) : World := snd (o w).

(** *** onStart *)

Definition REQUEST_TIMEOUT_MS : Z := 120000.
Definition DOWNLOAD_TIMEOUT_MS : Z := 30000.

Definition timedOutMessage : string :=
  "Request timed out. The file may be too large or the server is busy. Try a smaller file or try again.".

Definition genericMessage : string := "Mutation network failed".

Definition truthyMessage (m : option Message) : bool :=
  match m with
  | None => false
  | Some (Text s) => truthy s
  | Some (Parts _) => true
  end.

(** [a || b] *)
Definition orJs (a b : option Message) : option Message :=
  if truthyMessage a then a else b.

(** [Array.isArray(msg) ? msg.join(' ') : msg] *)
Definition joined (msg : option Message) : option Message :=
  match msg with
  | Some (Parts xs) => Some (Text (joinSpace xs))
  | other => other
  end.

(** [response.status === 'ok' && response.result] *)
Definition okWithResult (response : RunResponse) : bool :=
  String.eqb (status response) "ok" && truthy (result response).

(** [handleDownloadedResult(blob, filename)]: the reader is started; its
    [onload] runs later. *)
Definition handleDownloadedResult (blob : Blob) (_filename : string) (w : World) : World :=
  emit (ReadAsText blob) w.

(** [reader.onload] *)
Definition readerOnload (text : string) (w : World) : World :=
  emit ScheduleRender (emit MarkForCheck (setGraphData (Some (parseResultCsv text)) w)).

(** The first [tap]. *)
Definition rememberResult (response : RunResponse) (w : World) : World :=
  if okWithResult response then setProcessedFileName (result response) w else w.

(** The argument of [switchMap]. *)
Definition fetchResult (api : Backend) (response : RunResponse) : Obs (option Blob) :=
  if okWithResult response then
    fun w =>
      match tap (fun blob => handleDownloadedResult blob (result response))
                (timeout DOWNLOAD_TIMEOUT_MS (download api (result response))) w with
      | (inl blob, w') => (inl (Some blob), w')
      | (inr e, w') => (inr e, w')
      end
  else of_ None.

(** The argument of [catchError]. *)
Definition reportFailure (error : Failure) : Obs (option Blob) :=
  fun w =>
    let w' :=
      match error with
      | TimeoutError => setErrorMessage (Some (Text timedOutMessage)) w
      | OtherError detail message =>
          let msg := orJs (orJs detail (Text <$> message)) (Some (Text genericMessage)) in
          setErrorMessage (joined msg) w
      end in
    of_ None w'.

(** The argument of [finalize]. *)
Definition clearProcessing (w : World) : World :=
  emit MarkForCheck (setIsProcessing false w).

(** The state and the parameters with which the pipeline is subscribed. *)
Definition beginRun (w : World) : World :=
  setErrorMessage None (setGraphData None (setProcessedFileName EmptyString
    (setIsProcessing true w))).

Definition paramsOf (s : State) : MutationNetworkParams :=
  mkParams (savedFileName s) (trim (startSequence s)) (trim (endSequence s))
           (maxDistance s) (outputFormat s).

(** The pipeline up to and including the first [tap]. *)
Definition submitStage (api : Backend) (params : MutationNetworkParams) : Obs RunResponse :=
  tap rememberResult (timeout REQUEST_TIMEOUT_MS (run api params)).

Definition pipeline (api : Backend) (params : MutationNetworkParams) : Obs (option Blob) :=
  finalize clearProcessing
    (catchError reportFailure
       (switchMap (fetchResult api) (submitStage api params))).

Definition onStart (api : Backend) (w : World) : World :=
  if negb (canStart (comp w)) then w
  else
    let w1 := beginRun w in
    let params := paramsOf (comp w) in
    subscribe (pipeline api params) w1.

(** *** onDownload *)

Definition downloadFailedMessage : string := "Download failed".

Definition onDownload (api : Backend) (w : World) : World :=
  let filename := processedFileName (comp w) in
  if negb (truthy filename) then w
  else
    let w' := emit (request (download api filename)) w in
    match reply (download api filename) with
    | Answers _ blob => emit (SaveFile filename blob) w'
    | Fails _ error =>
        let detail := match error with
                      | TimeoutError => None
                      | OtherError d _ => d
                      end in
        setErrorMessage (orJs detail (Some (Text downloadFailedMessage))) w'
    | Silent => w'
    end.

End Component.

(** ** Reference definitions and loop invariants

    The definitions below are not part of the program: they say, in the
    words of the design notes, what the loops are expected to compute,
    and name the invariants the proofs carry through the loops. *)

Module Reference.
Import JsString Service Component.

(** A loop invariant of [parseRow]: every pushed cell satisfies [P] and
    the cell under construction holds no quote. *)
Definition cellsOk (P : string -> Prop) (st : RowState) : Prop :=
  Forall P (Service.result st) /\ includes (current st) dquote = false.

(** A data row is kept when both sequence cells are non-empty after
    trimming. *)
Definition keeps (sep : ascii) (fromIdx toIdx : Z) (line : string) : bool :=
  truthy (trim (field (parseRow sep line) fromIdx))
  && truthy (trim (field (parseRow sep line) toIdx)).

(** The step a kept row stands for. *)
Definition stepOfRow (sep : ascii) (fromIdx toIdx costIdx : Z) (line : string)
  : MutationPathStep :=
  let cols := parseRow sep line in
  mkStep (field cols fromIdx) (field cols toIdx) (costOf cols costIdx).

(** Insert each sequence of [qs], in order, unless it was inserted before. *)
Fixpoint insertUnseen (acc qs : list string) : list string :=
  match qs with
  | [] => acc
  | q :: qs' => insertUnseen (if decide (q ∈ acc) then acc else (acc ++ [q])%list) qs'
  end.

(** The sequences offered for insertion: the first step's [fromSequence],
    then every step's [toSequence]. *)
Definition candidates (ss : list MutationPathStep) : list string :=
  match ss with
  | [] => []
  | first :: _ => fromSequence first :: List.map toSequence ss
  end.

Definition discoveryOrder (ss : list MutationPathStep) : list string :=
  insertUnseen [] (candidates ss).

(** The link a step stands for. *)
Definition linkOf (s : MutationPathStep) : MutationNetworkLink :=
  mkLink (fromSequence s) (toSequence s) (transitionCost s).

(** The invariant of the graph-building loops. *)
Record builderOk (b : Builder) : Prop := mkBuilderOk {
  ok_seen : forall q, q ∈ b_seen b <-> q ∈ List.map sequence (b_nodes b);
  ok_idx : b_idx b = Z.of_nat (length (b_nodes b));
  ok_index : forall (i : nat) n, b_nodes b !! i = Some n ->
               index n = Z.of_nat i /\ id n = sequence n
}.

(** The text made of the given lines, one newline between two lines. *)
Fixpoint unlines (ls : list string) : string :=
  match ls with
  | [] => EmptyString
  | [l] => l
  | l :: ls' => l +:+ String newline (unlines ls')
  end.

(** The two-step result used as the end-to-end scenario. *)
Definition exampleText : string :=
  "From_Sequence,To_Sequence,Transition_Cost"
  +:+ String newline "AAAA,AAAT,1"
  +:+ String newline "AAAT,AATT,2".

(** The row whose first cell is quoted and holds a comma. *)
Definition quotedRow : string :=
  String dquote "AC,GT" +:+ String dquote ",ACGT,5".


(** A quoted cell with a doubled quote inside, then a second cell. *)
Definition doubledQuoteRow : string :=
  String dquote "a" +:+ String dquote (String dquote "b") +:+ String dquote ",c".

(** The message shown for a failure that is not a timeout: the detail
    when there is one (an array joined with spaces), else the error's own
    message, else the generic message.  A detail or a message that is the
    empty text counts as absent. *)
Definition ownOrGeneric (message : option string) : string :=
  match message with
  | Some (String c m) => String c m
  | _ => genericMessage
  end.

Definition failureText (detail : option Message) (message : option string) : string :=
  match detail with
  | Some (Parts xs) => joinSpace xs
  | Some (Text (String c d)) => String c d
  | _ => ownOrGeneric message
  end.

(** A reply that does not arrive within [limit] milliseconds. *)
Definition exceeds {A} (limit : Z) (r : Reply A) : Prop :=
  match r with
  | Answers t _ | Fails t _ => limit < t
  | Silent => True
  end.

(** Worlds and backends used as concrete instances. *)
Definition readyState : State :=
  mkState true "seqs.fasta" "AAAA" " AATT " 1 "csv" false EmptyString None None.

Definition blankStartState : State :=
  mkState true "seqs.fasta" "  " "AATT" 1 "csv" false EmptyString None
          (Some (Text "earlier message")).

Definition readyWorld : World := mkWorld readyState [].
Definition blankStartWorld : World := mkWorld blankStartState [].

(** The submit call takes 130 seconds. *)
Definition slowBackend : Backend :=
  mkBackend (fun _ => Answers 130000 (mkResponse "ok" "out.csv"))
            (fun _ => Answers 5 exampleText).

(** The submit call is refused with a two-part detail. *)
Definition refusingBackend : Backend :=
  mkBackend (fun _ => Fails 20 (OtherError (Some (Parts ["start_node"; "not found"]))
                                           (Some "Http failure response")))
            (fun _ => Silent).

(** The submit call succeeds, the download never answers. *)
Definition deadDownloadBackend : Backend :=
  mkBackend (fun _ => Answers 10 (mkResponse "ok" "out.csv"))
            (fun _ => Silent).

(** Both calls succeed. *)
Definition goodBackend : Backend :=
  mkBackend (fun _ => Answers 10 (mkResponse "ok" "out.csv"))
            (fun _ => Answers 5 exampleText).

End Reference.

(** ** The component's other handlers

    [onFileSelected] and [onUploadComplete] receive a [FileUploadResult]
    from the upload child component; [renderGraph] prepares what is handed
    to the D3 force simulation; [ngAfterViewInit] and [ngOnDestroy] attach
    and detach the resize hooks.  The simulation itself, its coordinates and
    the SVG attributes are not modelled. *)

Module UploadResult.

(** A file chosen by the user, by its name. *)
Definition File := string.

(** Modelled from the spec: the declaration of [FileUploadResult]
    (common/upload/upload.ts) is not among the sources, and the spec only
    says that the upload yields a server-side saved file name.  The record
    holds the four fields the component reads; an absent [savedFileName]
    or [error] is [None]. *)
Record FileUploadResult := mkResult {
  file : File;
  uploadComplete : bool;
  savedFileName : option string;
  error : option string
}.

End UploadResult.

Module Handlers.
Import JsString Service Component.

(** The component with the field [selectedFile], which only
    [onFileSelected] writes. *)
Record Widget := mkWidget {
  world : World;
  selectedFile : option UploadResult.File
}.

(** [this.uploadComplete = b; this.savedFileName = name] *)
Definition setUpload (b : bool) (name : string) (w : World) : World :=
  let s := comp w in
  mkWorld (mkState b name (startSequence s) (endSequence s)
             (maxDistance s) (outputFormat s) (isProcessing s) (processedFileName s)
             (graphData s) (errorMessage s)) (log w).

(** [onFileSelected(_result)] *)
Definition onFileSelected (_result : UploadResult.FileUploadResult) (x : Widget) : Widget :=
  mkWidget
    (setErrorMessage None (setGraphData None (setProcessedFileName EmptyString (world x))))
    (Some (UploadResult.file _result)).

(** [s] as a condition, for a string that may be [undefined]. *)
Definition truthyOpt (s : option string) : bool :=
  match s with
  | Some t => truthy t
  | None => false
  end.

(** [onUploadComplete(result)] *)
Definition onUploadComplete (result : UploadResult.FileUploadResult) (w : World) : World :=
  if UploadResult.uploadComplete result && truthyOpt (UploadResult.savedFileName result) then
    setErrorMessage None
      (setUpload true (orElse (UploadResult.savedFileName result) EmptyString) w)
  else if truthyOpt (UploadResult.error result) then
    setErrorMessage (Text <$> UploadResult.error result)
      (setUpload false (savedFileName (comp w)) w)
  else w.

End Handlers.

Module Rendering.
Import JsString Service Component.

(** The drawing surface: [clientWidth] and [clientHeight] of the
    container element. *)
Record Container := mkContainer {
  clientWidth : Z;
  clientHeight : Z
}.

(** A simulation node as [renderGraph] creates it, a copy of the graph
    node; the coordinates D3 adds later are not modelled. *)
Definition SimNode := MutationNetworkNode.

(** Link with source/target as node refs (used by D3). *)
Record SimLink := mkSimLink {
  l_source : SimNode;
  l_target : SimNode;
  l_cost : Number
}.

(** [new Map(nodes.map((n) => [n.id, n]))]: a later node replaces an
    earlier one with the same id. *)
Definition nodeById (ns : list SimNode) : gmap string SimNode :=
  fold_left (fun m n => <[id n := n]> m) ns ∅.

(** [nodeById.get(key) ?? (nodes[0] as SimNode)] *)
Definition resolveNode (m : gmap string SimNode) (first : SimNode) (key : string) : SimNode :=
  orElse (m !! key) first.

(** [links.map((l) => ({ source: ..., target: ..., cost: l.cost }))] *)
Definition linkObjects (ns : list SimNode) (first : SimNode)
    (ls : list MutationNetworkLink) : list SimLink :=
  List.map (fun l => mkSimLink (resolveNode (nodeById ns) first (source l))
                               (resolveNode (nodeById ns) first (target l))
                               (cost l)) ls.

(** What a call of [renderGraph] does to the container. *)
Inductive Rendered :=
  | Untouched
  | Cleared
  | Drawn (width height : Z) (ns : list SimNode) (ls : list SimLink).

(** [renderGraph()], up to the data handed to the simulation. *)
Definition renderGraph (container : option Container)
    (data : option MutationNetworkGraphData) : Rendered :=
  match container, data with
  | None, _ => Untouched
  | Some _, None => Cleared
  | Some c, Some d =>
      match nodes d with
      | [] => Cleared
      | first :: _ =>
          let width := clientWidth c in
          let height := clientHeight c in
          if (width <=? 0) || (height <=? 0) then Cleared
          else Drawn width height (nodes d) (linkObjects (nodes d) first (links d))
      end
  end.

(** The resize callbacks: [if (this.graphData()) this.renderGraph()]. *)
Definition onResize (container : option Container) (s : State) : Rendered :=
  match graphData s with
  | Some d => renderGraph container (Some d)
  | None => Untouched
  end.

End Rendering.

Module Lifecycle.

(** What the runtime offers when the view is set up and torn down. *)
Record Runtime := mkRuntime {
  hasContainer : bool;
  hasResizeObserver : bool;
  hasWindow : bool
}.

(** The field [resizeObserver] (is it set), the number of observers that
    are observing the container, and whether [_onWindowResize] is
    registered on [window]. *)
Record Hooks := mkHooks {
  resizeObserver : bool;
  observing : nat;
  windowListener : bool
}.

Definition noHooks : Hooks := mkHooks false 0 false.

(** [setupResizeObserver()] *)
Definition setupResizeObserver (rt : Runtime) (h : Hooks) : Hooks :=
  if negb (hasContainer rt) then h
  else if hasResizeObserver rt then mkHooks true (S (observing h)) (windowListener h)
  else if hasWindow rt then mkHooks (resizeObserver h) (observing h) true
  else h.

(** [ngAfterViewInit()] *)
Definition ngAfterViewInit (rt : Runtime) (h : Hooks) : Hooks :=
  setupResizeObserver rt h.

(** [ngOnDestroy()] *)
Definition ngOnDestroy (rt : Runtime) (h : Hooks) : Hooks :=
  let observing' := if resizeObserver h then Nat.pred (observing h) else observing h in
  mkHooks false observing' (if hasWindow rt then false else windowListener h).

End Lifecycle.

(** ** Auxiliary notions for the further properties *)

Module Notions.
Import JsString Service Component Reference.

Definition carriageReturn : ascii := "013"%char.

(** Decimal numerals, as lists of digit values: the text of a numeral and
    the integer it writes. *)
Definition digitChar (d : Z) : ascii := ascii_of_N (Z.to_N (48 + d)).

Fixpoint numeralOf (ds : list Z) : string :=
  match ds with
  | [] => EmptyString
  | d :: ds' => String (digitChar d) (numeralOf ds')
  end.

Definition valueFrom (acc : Z) (ds : list Z) : Z :=
  fold_left (fun a d => 10 * a + d) ds acc.

Definition valueOf (ds : list Z) : Z := valueFrom 0 ds.

Definition isDigits (ds : list Z) : Prop := Forall (fun d => 0 <= d <= 9) ds.

(** An optional sign in front of a numeral. *)
Inductive Sign := NoSign | PlusSign | MinusSign.

Definition signText (sg : Sign) : string :=
  match sg with
  | NoSign => EmptyString
  | PlusSign => "+"
  | MinusSign => "-"
  end.

Definition signed (sg : Sign) (m : Z) : Z :=
  match sg with
  | MinusSign => - m
  | _ => m
  end.

(** What may follow a numeral: nothing, or a character that is no digit. *)
Definition endsNumeral (rest : string) : Prop :=
  match rest with
  | EmptyString => True
  | String c _ => digitValue c = None
  end.

(** The numeral of 10^309, which exceeds every finite double. *)
Definition hugeNumeral : string := numeralOf (1 :: repeat 0 309%nat).

(** A result written with quoted names, the columns in another order, and
    CRLF line endings; and the same with LF line endings. *)
Definition quotedHeader : string :=
  String dquote "Transition_Cost" +:+ String dquote (String comma
  (String dquote "From_Sequence" +:+ String dquote (String comma
  (String dquote "To_Sequence" +:+ String dquote EmptyString)))).

Definition crlfText : string :=
  quotedHeader +:+ String carriageReturn (String newline
  ("7,A,B" +:+ String carriageReturn (String newline EmptyString))).

Definition lfText : string :=
  quotedHeader +:+ String newline ("7,A,B" +:+ String newline EmptyString).

(** The same names, each quoted, with a blank after the commas. *)
Definition paddedText : string :=
  String dquote "To_Sequence" +:+ String dquote (String comma (String " "
  (String dquote "From_Sequence" +:+ String dquote (String comma (String " "
  (String dquote "Transition_Cost" +:+ String dquote (String newline "B,A,7"))))))).

(** [cur] put in front of the first piece of a split. *)
Definition consHead (cur : string) (pieces : list string) : list string :=
  match pieces with
  | [] => [cur]
  | h :: t => (cur +:+ h) :: t
  end.

(** A walk: each step starts where the previous one ended. *)
Fixpoint chained (prev : string) (ss : list MutationPathStep) : Prop :=
  match ss with
  | [] => True
  | s :: ss' => fromSequence s = prev /\ chained (toSequence s) ss'
  end.

Definition contiguous (ss : list MutationPathStep) : Prop :=
  match ss with
  | [] => True
  | s :: ss' => chained (toSequence s) ss'
  end.

(** The requests among the effects. *)
Definition networkCalls (w : World) : list Effect :=
  List.filter isNetworkCall (log w).

(** The fields the gate reads, other than the processing flag. *)
Definition inputsOf (s : State) : bool * string * string * string * Z * string :=
  (uploadComplete s, savedFileName s, startSequence s, endSequence s,
   maxDistance s, outputFormat s).

(** A component that shows the result of an earlier run. *)
Definition usedWorld : World :=
  mkWorld (mkState true "seqs.fasta" "AAAA" "AATT" 1 "csv" false "old.csv"
             (Some (parseResultCsv exampleText)) None) [].

(** A component before any upload, with the sequences typed in. *)
Definition freshWorld : World :=
  mkWorld (mkState false EmptyString " AAAA" "AATT " 2 "tsv" false EmptyString None None) [].

End Notions.

(** ** Facts about the string primitives *)

Module JsStringFacts.
Import JsString.

Lemma trimStart_head_not_space s c t :
  trimStart s = String c t -> isWhiteSpace c = false.
Proof.
  induction s as [|d s IH]; simpl; [discriminate|].
  destruct (isWhiteSpace d) eqn:Hd; [exact IH|].
  intros [= -> _]. exact Hd.
Qed.

Lemma trimEnd_head s c t :
  trimEnd s = String c t -> exists s', s = String c s'.
Proof.
  destruct s as [|d s]; simpl; [discriminate|].
  destruct (trimEnd s); [destruct (isWhiteSpace d)|]; intros [= -> _]; eauto.
Qed.

Lemma trimEnd_idem s : trimEnd (trimEnd s) = trimEnd s.
Proof.
  induction s as [|c s IH]; simpl; [reflexivity|].
  destruct (trimEnd s) as [|d t] eqn:E.
  - destruct (isWhiteSpace c) eqn:Hc; simpl; [reflexivity|]. by rewrite Hc.
  - simpl in *. by rewrite IH.
Qed.

Lemma trimStart_not_space c t :
  isWhiteSpace c = false -> trimStart (String c t) = String c t.
Proof. intros H. simpl. by rewrite H. Qed.

(** [trim] is idempotent: a trimmed cell is unchanged by trimming again. *)
Lemma trim_idem s : trim (trim s) = trim s.
Proof.
  unfold trim.
  destruct (trimEnd (trimStart s)) as [|c t] eqn:E; [reflexivity|].
  destruct (trimEnd_head _ _ _ E) as [s' Hs'].
  pose proof (trimStart_head_not_space _ _ _ Hs') as Hc.
  rewrite (trimStart_not_space _ _ Hc), <- E. apply trimEnd_idem.
Qed.

Lemma truthy_true s : truthy s = true <-> s <> EmptyString.
Proof. destruct s; simpl; split; congruence. Qed.

Lemma truthy_false s : truthy s = false <-> s = EmptyString.
Proof. destruct s; simpl; split; congruence. Qed.

(** [findIndex] from a start offset: either nothing satisfies [p] and the
    answer is -1, or the answer is the offset of the first hit. *)
Lemma findIndexFrom_spec {A} (p : A -> bool) xs i :
  (findIndexFrom p xs i = -1 /\ Forall (fun x => p x = false) xs) \/
  (exists (k : nat) x,
      findIndexFrom p xs i = i + Z.of_nat k /\ xs !! k = Some x /\ p x = true /\
      forall (j : nat) y, (j < k)%nat -> xs !! j = Some y -> p y = false).
Proof.
  revert i. induction xs as [|x xs IH]; intros i; simpl.
  - left. split; [reflexivity | constructor].
  - destruct (p x) eqn:Hx.
    + right. exists 0%nat, x. repeat split; [lia | done | intros; lia].
    + destruct (IH (i + 1)) as [[E F] | (k & y & E & L & P & M)].
      * left. split; [exact E | by constructor].
      * right. exists (S k), y. repeat split; [lia | done | done |].
        intros [|j] z Hj Hz; simpl in Hz; [congruence|].
        eapply M; [|exact Hz]. lia.
Qed.

Lemma findIndex_absent {A} (p : A -> bool) xs :
  Forall (fun x => p x = false) xs -> findIndex p xs = -1.
Proof.
  intros F. unfold findIndex.
  destruct (findIndexFrom_spec p xs 0) as [[E _] | (k & y & _ & L & P & _)]; [exact E|].
  rewrite Forall_forall in F. apply list_elem_of_lookup_2 in L.
  specialize (F _ L). congruence.
Qed.

Lemma at_of_nat {A} (xs : list A) (k : nat) : at_ xs (Z.of_nat k) = xs !! k.
Proof.
  unfold at_. destruct (Z.ltb_spec (Z.of_nat k) 0) as [H|H]; [lia|].
  by rewrite Nat2Z.id.
Qed.

End JsStringFacts.

(** ** Facts about the row tokenizer and the row loop *)

Module RowFacts.
Import JsString JsStringFacts Service Reference.

Lemma app_cons (d : ascii) (s t : string) : String d s +:+ t = String d (s +:+ t).
Proof. reflexivity. Qed.

Lemma app_snoc_assoc (s : string) (c : ascii) (t : string) :
  (s +:+ String c EmptyString) +:+ t = s +:+ String c t.
Proof.
  induction s as [|d s IH]; [reflexivity|].
  by rewrite !app_cons, IH.
Qed.

Lemma app_empty_r (s : string) : s +:+ EmptyString = s.
Proof.
  induction s as [|d s IH]; [reflexivity|].
  by rewrite app_cons, IH.
Qed.

Lemma parseRowLoop_cons sep st c s :
  parseRowLoop sep st (String c s) = parseRowLoop sep (parseRowStep sep st c) s.
Proof. reflexivity. Qed.

Lemma parseRowLoop_app sep st s t :
  parseRowLoop sep st (s +:+ t) = parseRowLoop sep (parseRowLoop sep st s) t.
Proof.
  revert st. induction s as [|c s IH]; intros st; [reflexivity|].
  rewrite app_cons, !parseRowLoop_cons. apply IH.
Qed.

(** Inside quotes every code unit other than the quote itself, the
    separator included, is appended to the current cell. *)
Lemma parseRowLoop_quoted sep r cur body :
  includes body dquote = false ->
  parseRowLoop sep (mkRow r true cur) body = mkRow r true (cur +:+ body).
Proof.
  revert cur. induction body as [|c body IH]; intros cur H; simpl in H.
  - by rewrite app_empty_r.
  - apply orb_false_elim in H as [Hc Hb].
    rewrite parseRowLoop_cons. unfold parseRowStep at 1. simpl.
    rewrite Hc, andb_false_r. rewrite IH by exact Hb. by rewrite app_snoc_assoc.
Qed.





(** A quoted cell at the end of the row. *)
Lemma parseRow_quoted_last sep body :
  includes body dquote = false ->
  parseRow sep (String dquote (body +:+ String dquote EmptyString)) = [trim body].
Proof.
  intros Hbody. unfold parseRow, parseRowFrom.
  assert (E : parseRowLoop sep (mkRow [] false EmptyString)
                (String dquote (body +:+ String dquote EmptyString))
              = mkRow [] false body).
  { rewrite parseRowLoop_cons.
    change (parseRowStep sep (mkRow [] false EmptyString) dquote)
      with (mkRow [] true EmptyString).
    rewrite parseRowLoop_app, parseRowLoop_quoted by exact Hbody. reflexivity. }
  by rewrite E.
Qed.

Lemma includes_trimStart s c : includes (trimStart s) c = true -> includes s c = true.
Proof.
  induction s as [|d s IH]; simpl; [done|].
  destruct (isWhiteSpace d); [|done].
  intros H. rewrite (IH H). apply orb_true_r.
Qed.

Lemma includes_trimEnd s c : includes (trimEnd s) c = true -> includes s c = true.
Proof.
  induction s as [|d s IH]; simpl; [done|].
  destruct (trimEnd s) as [|e t].
  - destruct (isWhiteSpace d); simpl; [done|].
    rewrite orb_false_r. intros ->. reflexivity.
  - simpl in *. intros H. apply orb_true_iff in H as [H|H].
    + by rewrite H.
    + rewrite (IH H). apply orb_true_r.
Qed.

Lemma includes_trim_false s c : includes s c = false -> includes (trim s) c = false.
Proof.
  intros H. destruct (includes (trim s) c) eqn:E; [|reflexivity].
  apply includes_trimEnd, includes_trimStart in E. congruence.
Qed.

Lemma includes_snoc s d c :
  includes (s +:+ String d EmptyString) c = includes s c || Ascii.eqb d c.
Proof.
  induction s as [|e s IH]; [simpl; by rewrite orb_false_r|].
  rewrite app_cons. simpl. by rewrite IH, orb_assoc.
Qed.

Lemma parseRowStep_cellsOk (P : string -> Prop) sep st c :
  (forall s, includes s dquote = false -> P (trim s)) ->
  cellsOk P st -> cellsOk P (parseRowStep sep st c).
Proof.
  intros HP [Hr Hc]. unfold parseRowStep.
  destruct (Ascii.eqb c dquote) eqn:E; [done|].
  destruct (Ascii.eqb c sep && negb (inQuotes st)); split; simpl; try done.
  - apply Forall_app. split; [done|]. repeat constructor. by apply HP.
  - by rewrite includes_snoc, Hc, E.
Qed.

Lemma parseRowLoop_cellsOk (P : string -> Prop) sep st line :
  (forall s, includes s dquote = false -> P (trim s)) ->
  cellsOk P st -> cellsOk P (parseRowLoop sep st line).
Proof.
  intros HP. revert st. induction line as [|c line IH]; intros st H; [done|].
  rewrite parseRowLoop_cons. apply IH. by apply parseRowStep_cellsOk.
Qed.

Lemma parseRow_cells (P : string -> Prop) sep line :
  (forall s, includes s dquote = false -> P (trim s)) ->
  Forall P (parseRow sep line).
Proof.
  intros HP. unfold parseRow, parseRowFrom.
  destruct (parseRowLoop_cellsOk P sep (mkRow [] false EmptyString) line HP) as [Hr Hc].
  { split; [constructor | reflexivity]. }
  apply Forall_app. split; [done|]. repeat constructor. by apply HP.
Qed.

(** No cell returned by [parseRow] holds a quote character. *)
Lemma parseRow_no_quote sep line :
  Forall (fun cell => includes cell dquote = false) (parseRow sep line).
Proof. apply parseRow_cells. intros s H. by apply includes_trim_false. Qed.

(** Every cell returned by [parseRow] is already trimmed. *)
Lemma parseRow_trimmed sep line :
  Forall (fun cell => trim cell = cell) (parseRow sep line).
Proof. apply parseRow_cells. intros s _. apply trim_idem. Qed.

Lemma field_trimmed sep line i : trim (field (parseRow sep line) i) = field (parseRow sep line) i.
Proof.
  unfold field, at_. destruct (i <? 0); [reflexivity|].
  destruct (parseRow sep line !! Z.to_nat i) as [cell|] eqn:E; [|reflexivity].
  simpl. pose proof (parseRow_trimmed sep line) as F.
  rewrite Forall_forall in F. apply F. by eapply list_elem_of_lookup_2.
Qed.

(** The row loop collects, in order, the steps of the rows that give one. *)
Lemma fold_pushRow sep f t c rows acc :
  fold_left (pushRow sep f t c) rows acc = (acc ++ omap (rowStep sep f t c) rows)%list.
Proof.
  revert acc. induction rows as [|row rows IH]; intros acc; simpl.
  - by rewrite List.app_nil_r.
  - rewrite IH. unfold pushRow. destruct (rowStep sep f t c row); [|done].
    by rewrite <- app_assoc.
Qed.

Lemma readRows_omap sep f t c rows :
  readRows sep f t c rows = omap (rowStep sep f t c) rows.
Proof. unfold readRows. by rewrite fold_pushRow. Qed.

Lemma detectSep_cases header : detectSep header = tab \/ detectSep header = comma.
Proof. unfold detectSep. destruct (includes header tab); auto. Qed.

Lemma detectSep_not_quote header : detectSep header <> dquote.
Proof. destruct (detectSep_cases header) as [-> | ->]; discriminate. Qed.

End RowFacts.

(** ** Facts about the graph builder *)

Module GraphFacts.
Import JsString Service Reference.

Lemma discover_ok q b : builderOk b -> builderOk (discover q b).
Proof.
  intros [Hs Hi Hx]. unfold discover. destruct (decide (q ∈ b_seen b)) as [Hin|Hin].
  - by constructor.
  - constructor; simpl.
    + intros x. rewrite map_app, elem_of_union, elem_of_singleton, elem_of_app, Hs.
      simpl. rewrite list_elem_of_singleton. tauto.
    + rewrite length_app. simpl. lia.
    + intros i n Hn. apply lookup_app_Some in Hn as [Hn | [Hge Hn]]; [by apply Hx|].
      destruct (i - length (b_nodes b))%nat as [|k] eqn:E; simpl in Hn; [|done].
      injection Hn as <-. simpl. split; [lia | reflexivity].
Qed.

Lemma discover_nodes q b :
  builderOk b ->
  List.map sequence (b_nodes (discover q b))
  = insertUnseen (List.map sequence (b_nodes b)) [q].
Proof.
  intros [Hs _ _]. unfold discover. simpl.
  destruct (decide (q ∈ b_seen b)) as [Hin|Hin];
    destruct (decide (q ∈ List.map sequence (b_nodes b))) as [Hin'|Hin'];
    try reflexivity.
  - by apply Hs in Hin.
  - by apply Hs in Hin'.
  - simpl. by rewrite map_app.
Qed.

Lemma discover_links q b : b_links (discover q b) = b_links b.
Proof. unfold discover. by destruct (decide (q ∈ b_seen b)). Qed.

Lemma visitStep_ok b s : builderOk b -> builderOk (visitStep b s).
Proof.
  intros H. apply (discover_ok (toSequence s)) in H as [Hs Hi Hx].
  by constructor.
Qed.

Lemma insertUnseen_app acc qs qs' :
  insertUnseen acc (qs ++ qs') = insertUnseen (insertUnseen acc qs) qs'.
Proof. revert acc. induction qs as [|q qs IH]; intros acc; simpl; [done | apply IH]. Qed.

(** The loop over the steps, from any state satisfying the invariant. *)
Lemma fold_visitStep ss b :
  builderOk b ->
  let b' := fold_left visitStep ss b in
  builderOk b'
  /\ List.map sequence (b_nodes b')
     = insertUnseen (List.map sequence (b_nodes b)) (List.map toSequence ss)
  /\ b_links b' = (b_links b ++ List.map linkOf ss)%list.
Proof.
  revert b. induction ss as [|s ss IH]; intros b Hb; simpl.
  - by rewrite List.app_nil_r.
  - destruct (IH (visitStep b s) (visitStep_ok b s Hb)) as (Hok & Hn & Hl).
    split; [exact Hok|]. split.
    + rewrite Hn. unfold visitStep at 1. simpl.
      rewrite (discover_nodes _ _ Hb). reflexivity.
    + rewrite Hl. unfold visitStep at 1. simpl.
      rewrite discover_links, <- app_assoc. reflexivity.
Qed.

Lemma empty_builder_ok : builderOk (mkBuilder [] [] ∅ 0).
Proof. constructor; simpl; [intros q; set_solver | reflexivity | intros i n H; done]. Qed.

Lemma seedFirst_ok ss : builderOk (seedFirst ss (mkBuilder [] [] ∅ 0)).
Proof. destruct ss as [|s ss]; simpl; [|apply discover_ok]; apply empty_builder_ok. Qed.

(** What [buildGraph] computes. *)
Lemma buildGraph_spec ss :
  builderOk (buildGraph ss)
  /\ List.map sequence (b_nodes (buildGraph ss)) = discoveryOrder ss
  /\ b_links (buildGraph ss) = List.map linkOf ss.
Proof.
  unfold buildGraph.
  destruct (fold_visitStep ss _ (seedFirst_ok ss)) as (Hok & Hn & Hl).
  split; [exact Hok|]. split.
  - rewrite Hn. unfold discoveryOrder, candidates. destruct ss as [|s ss]; [reflexivity|].
    cbn [seedFirst]. rewrite (discover_nodes _ _ empty_builder_ok). reflexivity.
  - rewrite Hl. destruct ss as [|s ss]; [reflexivity|].
    cbn [seedFirst]. by rewrite discover_links.
Qed.

(** [insertUnseen] never repeats a sequence, keeps what was already
    inserted, and ends with exactly the offered sequences. *)
Lemma insertUnseen_NoDup acc qs : NoDup acc -> NoDup (insertUnseen acc qs).
Proof.
  revert acc. induction qs as [|q qs IH]; intros acc H; simpl; [done|].
  apply IH. destruct (decide (q ∈ acc)); [done|].
  apply NoDup_app. repeat split; [done | | apply NoDup_singleton].
  intros x Hx Hq. apply list_elem_of_singleton in Hq as ->. done.
Qed.

Lemma insertUnseen_elem acc qs x :
  x ∈ insertUnseen acc qs <-> x ∈ acc \/ x ∈ qs.
Proof.
  revert acc. induction qs as [|q qs IH]; intros acc; simpl.
  - rewrite elem_of_nil. tauto.
  - rewrite IH, elem_of_cons. destruct (decide (q ∈ acc)) as [Hq|Hq].
    + split; [tauto|]. intros [H|[->|H]]; tauto.
    + rewrite elem_of_app, list_elem_of_singleton. tauto.
Qed.

Lemma insertUnseen_prefix acc qs : acc `prefix_of` insertUnseen acc qs.
Proof.
  revert acc. induction qs as [|q qs IH]; intros acc; simpl; [done|].
  etrans; [|apply IH]. destruct (decide (q ∈ acc)); [done|]. by apply prefix_app_r.
Qed.

End GraphFacts.


(** ** The parser on whole texts *)

Module ParserFacts.
Import JsString JsStringFacts Service Reference RowFacts GraphFacts.

Lemma filter_all {A} (p : A -> bool) (l : list A) :
  Forall (fun x => p x = true) l -> List.filter p l = l.
Proof.
  induction 1 as [|x l Hx _ IH]; [reflexivity|]. simpl. by rewrite Hx, IH.
Qed.

Lemma split_none s c : includes s c = false -> split s c = [s].
Proof.
  induction s as [|d s IH]; simpl; [done|].
  intros H. apply orb_false_elim in H as [Hd Hs]. by rewrite Hd, (IH Hs).
Qed.

Lemma split_at s c t : includes s c = false -> split (s +:+ String c t) c = s :: split t c.
Proof.
  induction s as [|d s IH]; intros H.
  - change (EmptyString +:+ String c t) with (String c t). simpl.
    by rewrite Ascii.eqb_refl.
  - simpl in H. apply orb_false_elim in H as [Hd Hs].
    rewrite app_cons. simpl. by rewrite Hd, (IH Hs).
Qed.

(** Splitting a text made of newline-free lines gives the lines back. *)
Lemma split_unlines l ls :
  Forall (fun line => includes line newline = false) (l :: ls) ->
  split (unlines (l :: ls)) newline = l :: ls.
Proof.
  revert l. induction ls as [|l' ls IH]; intros l H.
  - apply split_none. by inversion H.
  - inversion H as [|? ? Hl Hrest]; subst.
    change (unlines (l :: l' :: ls)) with (l +:+ String newline (unlines (l' :: ls))).
    by rewrite split_at, IH.
Qed.

Lemma nonBlankLines_unlines l ls :
  Forall (fun line => includes line newline = false) (l :: ls) ->
  Forall (fun line => trim line <> EmptyString) (l :: ls) ->
  nonBlankLines (unlines (l :: ls)) = l :: ls.
Proof.
  intros Hn Hb. unfold nonBlankLines. rewrite (split_unlines _ _ Hn).
  apply filter_all. eapply Forall_impl; [exact Hb|].
  intros line Hl. by apply truthy_true.
Qed.

(** The steps of a text whose non-blank lines are a header and [rows]. *)
Lemma steps_unfold content header rows :
  nonBlankLines content = header :: rows ->
  steps (parseResultCsv content)
  = readRows (detectSep header)
      (fromIdxOf (headerTokens header (detectSep header)))
      (toIdxOf (headerTokens header (detectSep header)))
      (costIdxOf (headerTokens header (detectSep header))) rows.
Proof.
  intros H. unfold parseResultCsv. rewrite H.
  destruct rows as [|row rows]; reflexivity.
Qed.

(** The same for a text given by its lines: a header and data rows, none
    blank, none holding a newline. *)
Lemma steps_of_lines header rows :
  Forall (fun line => includes line newline = false) (header :: rows) ->
  Forall (fun line => trim line <> EmptyString) (header :: rows) ->
  steps (parseResultCsv (unlines (header :: rows)))
  = omap (rowStep (detectSep header)
            (fromIdxOf (headerTokens header (detectSep header)))
            (toIdxOf (headerTokens header (detectSep header)))
            (costIdxOf (headerTokens header (detectSep header)))) rows.
Proof.
  intros Hn Hb.
  rewrite (steps_unfold _ header rows (nonBlankLines_unlines _ _ Hn Hb)).
  apply readRows_omap.
Qed.

(** Nodes and links are those the builder makes from the returned steps. *)
Lemma graph_unfold content :
  nodes (parseResultCsv content) = b_nodes (buildGraph (steps (parseResultCsv content)))
  /\ links (parseResultCsv content) = b_links (buildGraph (steps (parseResultCsv content))).
Proof.
  unfold parseResultCsv.
  destruct (length (nonBlankLines content) <? 2)%nat; split; reflexivity.
Qed.

Lemma rowStep_keeps sep f t c line :
  rowStep sep f t c line
  = if keeps sep f t line then Some (stepOfRow sep f t c line) else None.
Proof. unfold rowStep, keeps, stepOfRow. by rewrite !field_trimmed. Qed.

Lemma omap_rowStep sep f t c rows :
  omap (rowStep sep f t c) rows
  = List.map (stepOfRow sep f t c) (List.filter (keeps sep f t) rows).
Proof.
  induction rows as [|row rows IH]; [reflexivity|].
  cbn [omap list_omap List.filter]. fold (omap (rowStep sep f t c) rows).
  rewrite rowStep_keeps, IH. by destruct (keeps sep f t row).
Qed.

Lemma filter_split_length {A} (p : A -> bool) (l : list A) :
  (length (List.filter p l) + length (List.filter (fun x => negb (p x)) l))%nat = length l.
Proof.
  induction l as [|x l IH]; [reflexivity|]. simpl.
  destruct (p x); simpl; lia.
Qed.

Lemma resolveColumn_absent hs name dflt :
  name ∉ hs -> resolveColumn hs name dflt = dflt.
Proof.
  intros H. unfold resolveColumn. rewrite findIndex_absent; [reflexivity|].
  apply Forall_forall. intros h Hh. apply String.eqb_neq. by intros ->.
Qed.

Lemma resolveColumn_present hs name dflt :
  name ∈ hs ->
  exists k : nat, resolveColumn hs name dflt = Z.of_nat k /\ hs !! k = Some name
    /\ forall j : nat, (j < k)%nat -> hs !! j <> Some name.
Proof.
  intros H. unfold resolveColumn, findIndex.
  destruct (findIndexFrom_spec (String.eqb name) hs 0) as [[_ F] | (k & y & E & L & P & M)].
  - rewrite Forall_forall in F. specialize (F _ H). by rewrite String.eqb_refl in F.
  - apply String.eqb_eq in P as <-. exists k. rewrite E.
    destruct (Z.leb_spec 0 (0 + Z.of_nat k)); [|lia].
    split; [lia|]. split; [done|].
    intros j Hj Hl. specialize (M j name Hj Hl). by rewrite String.eqb_refl in M.
Qed.

End ParserFacts.

(** ** Facts about numbers and [parseInt] *)

Module NumberFacts.
Import JsString JsStringFacts Notions.

Lemma roundToPrecision_small a : 0 <= a < 2 ^ 53 -> roundToPrecision a = a.
Proof.
  intros [H0 H]. unfold roundToPrecision.
  assert (Hl : Z.log2 a <= 52).
  { destruct (Z.eq_dec a 0) as [->|Hne]; [by vm_compute|].
    assert (Z.log2 a < 53) by (apply Z.log2_lt_pow2; lia). lia. }
  destruct (Z.leb_spec (Z.log2 a - 52) 0); [reflexivity | lia].
Qed.

Lemma pow53_lt_pow1024 : 2 ^ 53 < 2 ^ 1024.
Proof. apply Z.pow_lt_mono_r; lia. Qed.

(** An integer of magnitude at most 2^53 is its own Number. *)
Lemma toNumber_exact z : Z.abs z <= 2 ^ 53 -> toNumber z = Num z.
Proof.
  intros H. unfold toNumber.
  assert (E : roundToPrecision (Z.abs z) = Z.abs z).
  { destruct (Z.eq_dec (Z.abs z) (2 ^ 53)) as [->|Hne]; [by vm_compute|].
    apply roundToPrecision_small. lia. }
  rewrite E. pose proof pow53_lt_pow1024.
  destruct (Z.leb_spec (2 ^ 1024) (Z.abs z)); [lia|].
  by rewrite Z.mul_comm, Z.abs_sgn.
Qed.

Lemma roundToPrecision_ge a : 0 < a -> 2 ^ Z.log2 a <= roundToPrecision a.
Proof.
  intros Ha. unfold roundToPrecision.
  destruct (Z.log2_spec a Ha) as [Hlo Hhi].
  destruct (Z.leb_spec (Z.log2 a - 52) 0) as [Hs|Hs]; [exact Hlo|].
  set (shift := Z.log2 a - 52) in *.
  set (q := Z.shiftr a shift).
  assert (Hq : 2 ^ 52 <= q).
  { subst q. rewrite Z.shiftr_div_pow2 by lia.
    apply Z.div_le_lower_bound; [apply Z.pow_pos_nonneg; lia|].
    rewrite <- Z.pow_add_r by lia. replace (shift + 52) with (Z.log2 a) by lia. exact Hlo. }
  match goal with
  | |- context [if ?c then q + 1 else q] => set (q' := if c then q + 1 else q)
  end.
  assert (Hq' : q <= q').
  { subst q'. match goal with |- context [if ?c then _ else _] => destruct c end; lia. }
  rewrite Z.shiftl_mul_pow2 by lia.
  replace (Z.log2 a) with (52 + shift) by lia. rewrite Z.pow_add_r by lia.
  apply Z.mul_le_mono_nonneg_r; [apply Z.pow_nonneg; lia | lia].
Qed.

(** An integer of magnitude 2^1024 or more has no finite Number. *)
Lemma toNumber_overflow z :
  2 ^ 1024 <= Z.abs z -> toNumber z = if z <? 0 then NegInfinity else PosInfinity.
Proof.
  intros H. unfold toNumber.
  assert (Hp : 0 < 2 ^ 1024) by (apply Z.pow_pos_nonneg; lia).
  assert (Ha : 0 < Z.abs z) by lia.
  assert (He : 1024 <= Z.log2 (Z.abs z)) by (apply Z.log2_le_pow2; lia).
  pose proof (roundToPrecision_ge _ Ha) as Hr.
  assert (2 ^ 1024 <= 2 ^ Z.log2 (Z.abs z)) by (apply Z.pow_le_mono_r; lia).
  destruct (Z.leb_spec (2 ^ 1024) (roundToPrecision (Z.abs z))); [reflexivity | lia].
Qed.

(** [n || 0] keeps every Number: only [NaN] is replaced. *)
Lemma orZero_Some n : orZero (Some n) = n.
Proof. destruct n as [z| |]; simpl; [|done|done]. by destruct (Z.eqb_spec z 0) as [->|]. Qed.

Lemma digitValue_digitChar d : 0 <= d <= 9 -> digitValue (digitChar d) = Some d.
Proof.
  intros H.
  assert (E : d = 0 \/ d = 1 \/ d = 2 \/ d = 3 \/ d = 4 \/ d = 5 \/ d = 6 \/ d = 7
              \/ d = 8 \/ d = 9) by lia.
  repeat (destruct E as [->|E]; [reflexivity|]). by subst.
Qed.

Lemma readDigits_end rest seen acc :
  endsNumeral rest -> readDigits rest seen acc = if seen then Some acc else None.
Proof. destruct rest as [|c rest]; simpl; [done|]. by intros ->. Qed.

(** [readDigits] reads a numeral to its end. *)
Lemma readDigits_numeral ds rest seen acc :
  isDigits ds -> endsNumeral rest ->
  readDigits (numeralOf ds +:+ rest) seen acc
  = match ds with
    | [] => if seen then Some acc else None
    | _ => Some (valueFrom acc ds)
    end.
Proof.
  intros Hd Hr. revert seen acc. induction Hd as [|d ds Hd _ IH]; intros seen acc.
  - by apply readDigits_end.
  - change (numeralOf (d :: ds) +:+ rest)
      with (String (digitChar d) (numeralOf ds +:+ rest)).
    simpl readDigits. rewrite (digitValue_digitChar _ Hd), IH.
    by destruct ds.
Qed.

Lemma digitChar_plain d s :
  0 <= d <= 9 ->
  parseInt (String (digitChar d) s) = toNumber <$> readDigits (String (digitChar d) s) false 0.
Proof.
  intros H.
  assert (E : d = 0 \/ d = 1 \/ d = 2 \/ d = 3 \/ d = 4 \/ d = 5 \/ d = 6 \/ d = 7
              \/ d = 8 \/ d = 9) by lia.
  repeat (destruct E as [->|E]; [reflexivity|]). by subst.
Qed.

(** [parseInt] on an optional sign, a numeral and what may follow it. *)
Lemma parseInt_numeral sg ds rest :
  ds <> [] -> isDigits ds -> endsNumeral rest ->
  parseInt (signText sg +:+ (numeralOf ds +:+ rest))
  = Some (toNumber (signed sg (valueOf ds))).
Proof.
  intros Hne Hd Hr.
  destruct ds as [|d ds]; [done|].
  pose proof (readDigits_numeral (d :: ds) rest false 0 Hd Hr) as E.
  destruct sg; simpl signText.
  - change (EmptyString +:+ (numeralOf (d :: ds) +:+ rest))
      with (String (digitChar d) (numeralOf ds +:+ rest)).
    rewrite digitChar_plain by (by inversion Hd).
    change (String (digitChar d) (numeralOf ds +:+ rest))
      with (numeralOf (d :: ds) +:+ rest).
    by rewrite E.
  - change (parseInt ("+" +:+ (numeralOf (d :: ds) +:+ rest)))
      with (toNumber <$> readDigits (numeralOf (d :: ds) +:+ rest) false 0).
    by rewrite E.
  - change (parseInt ("-" +:+ (numeralOf (d :: ds) +:+ rest)))
      with ((fun m => toNumber (- m)) <$> readDigits (numeralOf (d :: ds) +:+ rest) false 0).
    by rewrite E.
Qed.

End NumberFacts.

(** ** The parser: checked properties *)

Module ParserClaims.
Import JsString JsStringFacts Service Reference Notions RowFacts GraphFacts ParserFacts
  NumberFacts.

(** C1.  Parsing the two-step example text (header
    [From_Sequence,To_Sequence,Transition_Cost], rows [AAAA,AAAT,1] and
    [AAAT,AATT,2]) returns the steps (AAAA,AAAT,1), (AAAT,AATT,2), the nodes
    AAAA with index 0, AAAT with index 1, AATT with index 2, and the links
    AAAA->AAAT of cost 1, AAAT->AATT of cost 2, in that order. *)
Theorem two_step_example :
  parseResultCsv exampleText
  = mkGraphData
      [mkStep "AAAA" "AAAT" 1; mkStep "AAAT" "AATT" 2]
      [mkNode "AAAA" "AAAA" 0; mkNode "AAAT" "AAAT" 1; mkNode "AATT" "AATT" 2]
      [mkLink "AAAA" "AAAT" 1; mkLink "AAAT" "AATT" 2].
Proof. vm_compute. reflexivity. Qed.

(** C2.  For a text whose non-blank lines are a header followed by the
    data rows [rows], the returned steps are, in row order, the steps of
    exactly the rows whose from and to cells are both non-empty after
    trimming; their number is the number of rows minus the number of
    dropped rows, and is the number of rows when no row is dropped. *)
Theorem steps_are_the_kept_rows (content header : string) (rows : list string) :
  nonBlankLines content = header :: rows ->
  let sep := detectSep header in
  let hs := headerTokens header sep in
  let f := fromIdxOf hs in
  let t := toIdxOf hs in
  let c := costIdxOf hs in
  let dropped := List.filter (fun row => negb (keeps sep f t row)) rows in
  steps (parseResultCsv content)
  = List.map (stepOfRow sep f t c) (List.filter (keeps sep f t) rows)
  /\ length (steps (parseResultCsv content)) = (length rows - length dropped)%nat
  /\ (Forall (fun row => keeps sep f t row = true) rows ->
      steps (parseResultCsv content) = List.map (stepOfRow sep f t c) rows
      /\ length (steps (parseResultCsv content)) = length rows).
Proof.
  intros H sep hs f t c dropped.
  assert (E : steps (parseResultCsv content)
              = List.map (stepOfRow sep f t c) (List.filter (keeps sep f t) rows)).
  { rewrite (steps_unfold _ _ _ H), readRows_omap. apply omap_rowStep. }
  split; [exact E|]. split.
  - rewrite E, length_map. subst dropped.
    pose proof (filter_split_length (keeps sep f t) rows). lia.
  - intros Hall. rewrite E, (filter_all _ _ Hall), length_map. done.
Qed.

Lemma steps_are_the_kept_rows_witness :
  nonBlankLines exampleText
  = ["From_Sequence,To_Sequence,Transition_Cost"; "AAAA,AAAT,1"; "AAAT,AATT,2"]
  /\ length (steps (parseResultCsv exampleText)) = 2%nat.
Proof.
  split; [vm_compute; reflexivity|].
  pose proof (steps_are_the_kept_rows exampleText
                "From_Sequence,To_Sequence,Transition_Cost"
                ["AAAA,AAAT,1"; "AAAT,AATT,2"]) as H.
  destruct H as (_ & _ & H); [vm_compute; reflexivity|].
  destruct H as [_ H]; [repeat constructor|]. exact H.
Defined.

(** The tokenizer on a few rows: plain cells, a quoted cell, a doubled
    quote (both quotes vanish, the cell stays open and closed as before),
    and a tab-separated row. *)
Example parseRow_examples :
  parseRow comma "AAAA, AAAT ,1" = ["AAAA"; "AAAT"; "1"]
  /\ parseRow comma quotedRow = ["AC,GT"; "ACGT"; "5"]
  /\ parseRow comma doubledQuoteRow = ["ab"; "c"]
  /\ parseRow tab (String dquote "A" +:+ String tab "B" +:+ String dquote (String tab "C,D"))
     = [String "A" (String tab "B"); "C,D"].
Proof. repeat split; vm_compute; reflexivity. Qed.



(** Header cells are stripped of one leading and one trailing quote,
    trimmed and lower-cased before they are compared. *)
Example headerTokens_examples :
  headerTokens (String dquote "From_Sequence" +:+ String dquote ", TO_SEQUENCE ,Cost") comma
  = ["from_sequence"; "to_sequence"; "cost"]
  /\ headerTokens ("To" +:+ String tab "From, x") (detectSep ("To" +:+ String tab "From, x"))
     = ["to"; "from, x"].
Proof. split; vm_compute; reflexivity. Qed.

(** Each of the three columns is resolved on its own: when the header
    cells, normalised as the code does, hold the column's name, its
    position is that of the first such cell; when they do not, it is 0 for
    [from_sequence], 1 for [to_sequence] and 2 for [transition_cost].  A
    header with none of the three names is read with positions 0, 1 and
    2. *)
Theorem columns_resolved_by_name_or_position (content header : string) (rows : list string) :
  nonBlankLines content = header :: rows ->
  let sep := detectSep header in
  let hs := List.map (fun h => toLowerCase (trim (stripQuotes h))) (split header sep) in
  steps (parseResultCsv content)
  = readRows sep (resolveColumn hs "from_sequence" 0) (resolveColumn hs "to_sequence" 1)
      (resolveColumn hs "transition_cost" 2) rows
  /\ (forall name dflt, name ∈ hs ->
      exists k : nat, resolveColumn hs name dflt = Z.of_nat k /\ hs !! k = Some name
        /\ forall j : nat, (j < k)%nat -> hs !! j <> Some name)
  /\ (forall name dflt, name ∉ hs -> resolveColumn hs name dflt = dflt)
  /\ ("from_sequence" ∉ hs -> "to_sequence" ∉ hs -> "transition_cost" ∉ hs ->
      steps (parseResultCsv content) = readRows sep 0 1 2 rows).
Proof.
  intros H sep hs.
  assert (E := steps_unfold _ _ _ H).
  split; [exact E|].
  split; [intros name dflt; apply resolveColumn_present|].
  split; [intros name dflt; apply resolveColumn_absent|].
  intros Hf Ht Hc. rewrite E. unfold fromIdxOf, toIdxOf, costIdxOf.
  fold sep. change (headerTokens header sep) with hs.
  by rewrite !resolveColumn_absent.
Qed.

Lemma columns_resolved_by_name_or_position_witness :
  steps (parseResultCsv ("a,b,c" +:+ String newline "AAAA,AAAT,1"))
  = [mkStep "AAAA" "AAAT" 1]
  /\ resolveColumn ["cost"; "to_sequence"; "from_sequence"] "from_sequence" 0 = 2
  /\ resolveColumn ["cost"; "to_sequence"; "x"] "from_sequence" 0 = 0.
Proof.
  pose proof (columns_resolved_by_name_or_position
                ("a,b,c" +:+ String newline "AAAA,AAAT,1") "a,b,c" ["AAAA,AAAT,1"]
                eq_refl) as (_ & _ & _ & H).
  split; [|split; vm_compute; reflexivity].
  rewrite H; [vm_compute; reflexivity | | |];
    intros Hin; repeat (apply elem_of_cons in Hin as [Hin|Hin]; [discriminate|]);
    by apply elem_of_nil in Hin.
Defined.

(** C5.  The header cells are searched after a normalisation that
    strips a quote only at the very ends of the raw cell, before it trims.
    A quoted name with white space beside it is therefore not found - the
    last name of a header line that ends in a carriage return, or a name
    after a blank - and its column falls back to the position, although
    the lower-cased, quote-stripped, trimmed cell is the name, and although
    the row tokenizer reads the very same cells as the three names.  With
    the columns in another order the steps then come out wrong: the
    CRLF text gives the step (A, A, 7) where the same text with LF line
    endings gives (A, B, 7), and the padded header gives (B, B, 7). *)
Theorem quoted_name_beside_white_space_is_missed :
  nonBlankLines crlfText
  = [quotedHeader +:+ String carriageReturn EmptyString;
     "7,A,B" +:+ String carriageReturn EmptyString]
  /\ headerTokens (quotedHeader +:+ String carriageReturn EmptyString) comma
     = ["transition_cost"; "from_sequence"; "to_sequence" +:+ String dquote EmptyString]
  /\ List.map toLowerCase (parseRow comma (quotedHeader +:+ String carriageReturn EmptyString))
     = ["transition_cost"; "from_sequence"; "to_sequence"]
  /\ steps (parseResultCsv crlfText) = [mkStep "A" "A" 7]
  /\ steps (parseResultCsv lfText) = [mkStep "A" "B" 7]
  /\ steps (parseResultCsv paddedText) = [mkStep "B" "B" 7].
Proof. repeat split; vm_compute; reflexivity. Qed.

(** [parseInt] reads an integer prefix and gives the nearest double;
    without a digit it gives [NaN]. *)
Example parseInt_examples :
  parseInt "5" = Some (Num 5) /\ parseInt " 12abc" = Some (Num 12)
  /\ parseInt "-7" = Some (Num (-7)) /\ parseInt "+3.9" = Some (Num 3)
  /\ parseInt "abc" = None /\ parseInt EmptyString = None
  /\ parseInt "-" = None /\ parseInt "1e3" = Some (Num 1)
  /\ parseInt "9007199254740993" = Some (Num 9007199254740992)
  /\ parseInt "9007199254740995" = Some (Num 9007199254740996)
  /\ parseInt hugeNumeral = Some PosInfinity.
Proof. repeat split; vm_compute; reflexivity. Qed.

(** The cost is not always the integer written in the cell, and not
    always an integer: 2^53 + 1 is read as 2^53, and a numeral of 310
    digits as Infinity. *)
Lemma cost_may_be_rounded_or_infinite :
  costOf ["AAAA"; "AAAT"; "9007199254740993"] 2 = Num 9007199254740992
  /\ costOf ["AAAA"; "AAAT"; hugeNumeral] 2 = PosInfinity
  /\ (forall z : Z, costOf ["AAAA"; "AAAT"; hugeNumeral] 2 <> Num z)
  /\ steps (parseResultCsv ("a,b,c" +:+ String newline ("AAAA,AAAT," +:+ hugeNumeral)))
     = [mkStep "AAAA" "AAAT" PosInfinity].
Proof.
  assert (E : costOf ["AAAA"; "AAAT"; hugeNumeral] 2 = PosInfinity)
    by (vm_compute; reflexivity).
  split; [vm_compute; reflexivity|]. split; [exact E|].
  split; [intros z; rewrite E; discriminate | vm_compute; reflexivity].
Qed.

(** C6.  The cost of a data row is 0 when the row has no cell at the cost
    column, and 0 when [parseInt] finds no digit at the start of the cell
    (after an optional sign).  When the cell starts with a numeral, with or
    without sign and whatever follows it, the cost is the double nearest to
    the integer the numeral writes: that integer itself when its magnitude
    is at most 2^53, and an infinity when it is 2^1024 or more.  The
    computation is a total function of the row and raises nothing. *)
Theorem cost_is_nearest_double_or_zero (cols : list string) (costIdx : Z) :
  (at_ cols costIdx = None -> costOf cols costIdx = Num 0)
  /\ (forall cell, at_ cols costIdx = Some cell -> parseInt cell = None ->
      costOf cols costIdx = Num 0)
  /\ (forall sg rest, sg <> NoSign -> endsNumeral rest ->
      at_ cols costIdx = Some (signText sg +:+ rest) -> costOf cols costIdx = Num 0)
  /\ (forall sg ds rest, ds <> [] -> isDigits ds -> endsNumeral rest ->
      at_ cols costIdx = Some (signText sg +:+ (numeralOf ds +:+ rest)) ->
      let z := signed sg (valueOf ds) in
      costOf cols costIdx = toNumber z
      /\ (Z.abs z <= 2 ^ 53 -> costOf cols costIdx = Num z)
      /\ (2 ^ 1024 <= Z.abs z ->
          costOf cols costIdx = if z <? 0 then NegInfinity else PosInfinity))
  /\ (forall sep f t line s, cols = parseRow sep line ->
      rowStep sep f t costIdx line = Some s -> transitionCost s = costOf cols costIdx).
Proof.
  split. { intros H. unfold costOf. by rewrite H. }
  split. { intros cell H Hp. unfold costOf. rewrite H. simpl. by rewrite Hp. }
  split.
  { intros sg rest Hsg Hr H. unfold costOf. rewrite H. simpl orElse.
    destruct sg; [done| |].
    - change (parseInt (signText PlusSign +:+ rest))
        with (toNumber <$> readDigits rest false 0).
      by rewrite (readDigits_end _ _ _ Hr).
    - change (parseInt (signText MinusSign +:+ rest))
        with ((fun m => toNumber (- m)) <$> readDigits rest false 0).
      by rewrite (readDigits_end _ _ _ Hr). }
  split.
  { intros sg ds rest Hne Hd Hr H z.
    assert (E : costOf cols costIdx = toNumber z).
    { unfold costOf. rewrite H. simpl orElse.
      rewrite (parseInt_numeral _ _ _ Hne Hd Hr). apply orZero_Some. }
    split; [exact E|]. rewrite E.
    split; [apply toNumber_exact | apply toNumber_overflow]. }
  intros sep f t line s -> Hs. unfold rowStep in Hs.
  destruct (truthy _ && truthy _); [|done]. by injection Hs as <-.
Qed.

Lemma cost_is_nearest_double_or_zero_witness :
  costOf ["AAAA"; "AAAT"] 2 = Num 0 /\ costOf ["AAAA"; "AAAT"; "n/a"] 2 = Num 0
  /\ costOf ["AAAA"; "AAAT"; "-"] 2 = Num 0
  /\ costOf ["AAAA"; "AAAT"; "-42.5"] 2 = Num (-42)
  /\ costOf ["AAAA"; "AAAT"; hugeNumeral] 2 = PosInfinity.
Proof.
  split; [|split; [|split; [|split]]].
  - destruct (cost_is_nearest_double_or_zero ["AAAA"; "AAAT"] 2) as (H & _).
    apply H. reflexivity.
  - destruct (cost_is_nearest_double_or_zero ["AAAA"; "AAAT"; "n/a"] 2) as (_ & H & _).
    apply (H "n/a"); reflexivity.
  - destruct (cost_is_nearest_double_or_zero ["AAAA"; "AAAT"; "-"] 2) as (_ & _ & H & _).
    apply (H MinusSign EmptyString); [discriminate | exact I | reflexivity].
  - destruct (cost_is_nearest_double_or_zero ["AAAA"; "AAAT"; "-42.5"] 2)
      as (_ & _ & _ & H & _).
    assert (Hne : [4; 2] <> []) by discriminate.
    assert (Hd : isDigits [4; 2]) by (repeat constructor; lia).
    destruct (H MinusSign [4; 2] ".5" Hne Hd eq_refl eq_refl) as (_ & Hx & _).
    apply Hx. vm_compute. discriminate.
  - destruct (cost_is_nearest_double_or_zero ["AAAA"; "AAAT"; hugeNumeral] 2)
      as (_ & _ & _ & H & _).
    assert (Hne : 1 :: repeat 0 309%nat <> []) by discriminate.
    assert (Hd : isDigits (1 :: repeat 0 309%nat)).
    { constructor; [lia|]. apply Forall_forall. intros d Hin.
      apply list_elem_of_In, repeat_spec in Hin. lia. }
    destruct (H NoSign (1 :: repeat 0 309%nat) EmptyString Hne Hd I)
      as (_ & _ & Hx).
    { vm_compute. reflexivity. }
    apply Hx. vm_compute. discriminate.
Defined.

(** The builder on a path with a gap: the second step's [fromSequence]
    is not the first step's [toSequence], and gets no node. *)
Example buildGraph_gap :
  let b := buildGraph [mkStep "A" "B" 1; mkStep "C" "D" 2; mkStep "D" "B" 3] in
  b_nodes b = [mkNode "A" "A" 0; mkNode "B" "B" 1; mkNode "D" "D" 2]
  /\ b_links b = [mkLink "A" "B" 1; mkLink "C" "D" 2; mkLink "D" "B" 3].
Proof. split; vm_compute; reflexivity. Qed.

Lemma ok_ids b : builderOk b -> List.map id (b_nodes b) = List.map sequence (b_nodes b).
Proof.
  intros [_ _ Hx]. apply list_eq. intros i.
  change (List.map id (b_nodes b)) with (id <$> b_nodes b).
  change (List.map sequence (b_nodes b)) with (sequence <$> b_nodes b).
  rewrite !list_lookup_fmap. destruct (b_nodes b !! i) as [n|] eqn:E; [|reflexivity].
  simpl. f_equal. by apply (Hx i).
Qed.

Lemma ok_indices b :
  builderOk b ->
  List.map index (b_nodes b) = List.map Z.of_nat (seq 0 (length (b_nodes b))).
Proof.
  intros [_ _ Hx]. apply list_eq. intros i.
  change (List.map index (b_nodes b)) with (index <$> b_nodes b).
  change (List.map Z.of_nat (seq 0 (length (b_nodes b))))
    with (Z.of_nat <$> seq 0 (length (b_nodes b))).
  rewrite !list_lookup_fmap. destruct (b_nodes b !! i) as [n|] eqn:E; simpl.
  - rewrite lookup_seq_lt by (by eapply lookup_lt_Some). simpl. f_equal. by apply (Hx i).
  - rewrite lookup_seq_ge by (by apply lookup_ge_None). reflexivity.
Qed.

Lemma buildGraph_head s ss :
  head (b_nodes (buildGraph (s :: ss))) = Some (mkNode (fromSequence s) (fromSequence s) 0).
Proof.
  destruct (buildGraph_spec (s :: ss)) as ([_ _ Hx] & Hn & _).
  assert (Hp : [fromSequence s] `prefix_of` List.map sequence (b_nodes (buildGraph (s :: ss)))).
  { rewrite Hn. unfold discoveryOrder, candidates. cbn [insertUnseen].
    destruct (decide (fromSequence s ∈ [])) as [Hin|_]; [by apply elem_of_nil in Hin|].
    apply insertUnseen_prefix. }
  destruct Hp as [k Hk].
  destruct (b_nodes (buildGraph (s :: ss))) as [|n ns] eqn:E; [discriminate|].
  injection Hk as Hseq _. destruct (Hx 0%nat n eq_refl) as [Hi Hid].
  destruct n as [i q x]. simpl in *. by subst.
Qed.

(** C4.  For every list of steps the builder's node sequences are those
    obtained by offering the first step's [fromSequence] and then every
    step's [toSequence], in step order, and inserting each one unless it was
    inserted before; when there is a step, the first node is the first
    step's [fromSequence]; no sequence other than the offered ones gets a
    node; a node's [id] is its sequence and its [index] its position,
    counted from 0; the links are the steps, one for one and in order, so
    there are as many links as steps.  The nodes and links returned by
    [parseResultCsv] are those the builder makes from the returned steps. *)
Theorem graph_follows_discovery_rule (ss : list MutationPathStep) (content : string) :
  let b := buildGraph ss in
  let g := parseResultCsv content in
  List.map sequence (b_nodes b) = discoveryOrder ss
  /\ (forall s ss', head (b_nodes (buildGraph (s :: ss')))
                    = Some (mkNode (fromSequence s) (fromSequence s) 0))
  /\ (forall q, q ∈ List.map sequence (b_nodes b) <-> q ∈ candidates ss)
  /\ NoDup (List.map id (b_nodes b))
  /\ List.map id (b_nodes b) = List.map sequence (b_nodes b)
  /\ List.map index (b_nodes b) = List.map Z.of_nat (seq 0 (length (b_nodes b)))
  /\ b_links b = List.map linkOf ss
  /\ length (b_links b) = length ss
  /\ nodes g = b_nodes (buildGraph (steps g))
  /\ links g = List.map linkOf (steps g)
  /\ length (links g) = length (steps g).
Proof.
  intros b g. destruct (buildGraph_spec ss) as (Hok & Hn & Hl). fold b in Hok, Hn, Hl.
  split; [exact Hn|].
  split; [apply buildGraph_head|].
  split.
  { intros q. rewrite Hn. unfold discoveryOrder. rewrite insertUnseen_elem, elem_of_nil.
    tauto. }
  split.
  { rewrite (ok_ids _ Hok), Hn. apply insertUnseen_NoDup, NoDup_nil_2. }
  split; [by apply ok_ids|].
  split; [by apply ok_indices|].
  split; [exact Hl|].
  split; [by rewrite Hl, length_map|].
  destruct (graph_unfold content) as [Gn Gl]. fold g in Gn, Gl.
  destruct (buildGraph_spec (steps g)) as (_ & _ & Hl').
  split; [exact Gn|].
  split; [by rewrite Gl|].
  by rewrite Gl, Hl', length_map.
Qed.

End ParserClaims.

(** ** Facts about the pipeline of [onStart] *)

Module PipelineFacts.
Import JsString JsStringFacts Service Component Reference.

Lemma onStart_started api w :
  canStart (comp w) = true ->
  onStart api w = subscribe (pipeline api (paramsOf (comp w))) (beginRun w).
Proof. intros H. unfold onStart. by rewrite H. Qed.

Lemma onStart_blocked api w : canStart (comp w) = false -> onStart api w = w.
Proof. intros H. unfold onStart. by rewrite H. Qed.

(** The gate is closed exactly when one of its five conditions fails. *)
Lemma canStart_false_iff s :
  canStart s = false <->
  uploadComplete s = false \/ trim (savedFileName s) = EmptyString
  \/ trim (startSequence s) = EmptyString \/ trim (endSequence s) = EmptyString
  \/ isProcessing s = true.
Proof.
  unfold canStart. rewrite !andb_false_iff, !truthy_false, negb_false_iff. tauto.
Qed.

(** The four ways the pipeline can go, by what the two requests settle to. *)
Lemma pipeline_submit_error api p w e :
  settle REQUEST_TIMEOUT_MS (mutationNetwork api p) = inr e ->
  subscribe (pipeline api p) w
  = clearProcessing (snd (reportFailure e (emit (CallRun p) w))).
Proof.
  intros H. unfold subscribe, pipeline, finalize, catchError, switchMap, submitStage,
    tap, timeout, run. simpl. rewrite H. reflexivity.
Qed.

Lemma pipeline_no_result api p w response :
  settle REQUEST_TIMEOUT_MS (mutationNetwork api p) = inl response ->
  okWithResult response = false ->
  subscribe (pipeline api p) w = clearProcessing (emit (CallRun p) w).
Proof.
  intros H Hok. unfold subscribe, pipeline, finalize, catchError, switchMap, submitStage,
    tap, timeout, run, fetchResult, rememberResult. simpl. rewrite H, Hok. reflexivity.
Qed.

Lemma pipeline_download_error api p w response e :
  settle REQUEST_TIMEOUT_MS (mutationNetwork api p) = inl response ->
  okWithResult response = true ->
  settle DOWNLOAD_TIMEOUT_MS (downloadFile api (result response)) = inr e ->
  subscribe (pipeline api p) w
  = clearProcessing
      (snd (reportFailure e
              (emit (CallDownload (result response))
                 (setProcessedFileName (result response) (emit (CallRun p) w))))).
Proof.
  intros H Hok Hd. unfold subscribe, pipeline, finalize, catchError, switchMap, submitStage,
    tap, timeout, run, download, fetchResult, rememberResult. simpl.
  rewrite H, Hok. unfold tap, timeout, download. simpl. rewrite Hd. reflexivity.
Qed.

Lemma pipeline_download_ok api p w response blob :
  settle REQUEST_TIMEOUT_MS (mutationNetwork api p) = inl response ->
  okWithResult response = true ->
  settle DOWNLOAD_TIMEOUT_MS (downloadFile api (result response)) = inl blob ->
  subscribe (pipeline api p) w
  = clearProcessing
      (handleDownloadedResult blob (result response)
         (emit (CallDownload (result response))
            (setProcessedFileName (result response) (emit (CallRun p) w)))).
Proof.
  intros H Hok Hd. unfold subscribe, pipeline, finalize, catchError, switchMap, submitStage,
    tap, timeout, run, download, fetchResult, rememberResult. simpl.
  rewrite H, Hok. unfold tap, timeout, download. simpl. rewrite Hd. reflexivity.
Qed.

(** The message computed by the error handler is [failureText]. *)
Lemma joined_failureText d m :
  joined (orJs (orJs d (Text <$> m)) (Some (Text genericMessage)))
  = Some (Text (failureText d m)).
Proof.
  destruct d as [[[|c s]|xs]|]; destruct m as [[|c' s']|]; reflexivity.
Qed.

Lemma reportFailure_message e w :
  errorMessage (comp (snd (reportFailure e w)))
  = Some (Text match e with
               | TimeoutError => timedOutMessage
               | OtherError d m => failureText d m
               end).
Proof.
  destruct e as [|d m]; [reflexivity|].
  unfold reportFailure, of_. simpl. apply joined_failureText.
Qed.

Lemma reportFailure_keeps e w :
  processedFileName (comp (snd (reportFailure e w))) = processedFileName (comp w)
  /\ graphData (comp (snd (reportFailure e w))) = graphData (comp w)
  /\ isProcessing (comp (snd (reportFailure e w))) = isProcessing (comp w)
  /\ log (snd (reportFailure e w)) = log w.
Proof. destruct e; repeat split; reflexivity. Qed.

(** A reply that exceeds the limit settles to a timeout; a value or an
    error that comes in time settles to itself. *)
Lemma settle_exceeds {A} limit (r : Reply A) :
  exceeds limit r -> settle limit r = inr TimeoutError.
Proof.
  destruct r as [t v|t e|]; simpl; [| |done];
    intros H; by destruct (Z.ltb_spec limit t); [|lia].
Qed.

Lemma settle_answers_in_time {A} limit t (v : A) :
  t < limit -> settle limit (Answers t v) = inl v.
Proof. intros H. simpl. destruct (Z.ltb_spec limit t); [lia | reflexivity]. Qed.

Lemma settle_fails_in_time {A} limit t e :
  t < limit -> settle (A := A) limit (Fails t e) = inr e.
Proof. intros H. simpl. destruct (Z.ltb_spec limit t); [lia | reflexivity]. Qed.

Lemma okWithResult_true response :
  okWithResult response = true <->
  status response = "ok" /\ result response <> EmptyString.
Proof.
  unfold okWithResult. rewrite andb_true_iff, String.eqb_eq, truthy_true. tauto.
Qed.

(** The pipeline always ends with the processing flag down. *)
Lemma pipeline_clears api p w : isProcessing (comp (subscribe (pipeline api p) w)) = false.
Proof.
  unfold subscribe, pipeline, finalize.
  destruct (catchError _ _ w) as [r w']. reflexivity.
Qed.

Lemma log_clearProcessing w : log (clearProcessing w) = (log w ++ [MarkForCheck])%list.
Proof. reflexivity. Qed.

Lemma log_reportFailure e w : log (snd (reportFailure e w)) = log w.
Proof. by destruct e. Qed.

(** A started run issues the submit call first. *)
Lemma pipeline_calls_run api p w :
  exists rest, log (subscribe (pipeline api p) w) = (log w ++ CallRun p :: rest)%list.
Proof.
  destruct (settle REQUEST_TIMEOUT_MS (mutationNetwork api p)) as [response|e] eqn:H.
  - destruct (okWithResult response) eqn:Hok.
    + destruct (settle DOWNLOAD_TIMEOUT_MS (downloadFile api (result response)))
        as [blob|e] eqn:Hd.
      * rewrite (pipeline_download_ok _ _ _ _ _ H Hok Hd), log_clearProcessing. simpl.
        eexists. rewrite <- !app_assoc. reflexivity.
      * rewrite (pipeline_download_error _ _ _ _ _ H Hok Hd), log_clearProcessing,
          log_reportFailure. simpl.
        eexists. rewrite <- !app_assoc. reflexivity.
    + rewrite (pipeline_no_result _ _ _ _ H Hok), log_clearProcessing. simpl.
      eexists. rewrite <- !app_assoc. reflexivity.
  - rewrite (pipeline_submit_error _ _ _ _ H), log_clearProcessing, log_reportFailure.
    simpl. eexists. rewrite <- !app_assoc. reflexivity.
Qed.

(** A response whose status is not "ok", or that names no result, is not
    an error for the pipeline: nothing is downloaded and no message is
    set. *)
Lemma no_result_is_silent api w response :
  canStart (comp w) = true ->
  settle REQUEST_TIMEOUT_MS (mutationNetwork api (paramsOf (comp w))) = inl response ->
  okWithResult response = false ->
  errorMessage (comp (onStart api w)) = None
  /\ processedFileName (comp (onStart api w)) = EmptyString
  /\ log (onStart api w) = (log w ++ [CallRun (paramsOf (comp w)); MarkForCheck])%list.
Proof.
  intros Hc H Hok. rewrite (onStart_started _ _ Hc), (pipeline_no_result _ _ _ _ H Hok).
  simpl. rewrite <- app_assoc. done.
Qed.

End PipelineFacts.

(** ** The component: checked properties *)

Module ComponentClaims.
Import JsString JsStringFacts Service Component Reference PipelineFacts.

(** What [failureText] is, case by case. *)
Lemma failureText_cases (detail : option Message) (message : option string) :
  (forall xs, detail = Some (Parts xs) -> failureText detail message = joinSpace xs)
  /\ (forall s, detail = Some (Text s) -> s <> EmptyString -> failureText detail message = s)
  /\ (detail = None \/ detail = Some (Text EmptyString) ->
      (forall s, message = Some s -> s <> EmptyString -> failureText detail message = s)
      /\ (message = None \/ message = Some EmptyString ->
          failureText detail message = genericMessage)).
Proof.
  split; [by intros xs ->|].
  split; [intros [|c s] -> H; done|].
  intros [-> | ->]; (split; [intros [|c s] -> H; done | intros [-> | ->]; done]).
Qed.

Lemma shown_after_failure e w :
  errorMessage (comp (clearProcessing (snd (reportFailure e w))))
  = Some (Text match e with
               | TimeoutError => timedOutMessage
               | OtherError d m => failureText d m
               end).
Proof. apply reportFailure_message. Qed.

(** C7.  In a started run, a timeout of the submit call or of the download
    shows the request-timed-out message.  Any other error of either call
    shows [failureText]: the detail of the error when it has one (an array
    joined with spaces), else the error's own message, else the generic
    message.  The timed-out message is not the generic one, so a submit
    call that exceeds its limit never shows the generic message. *)
Theorem failures_are_reported (api : Backend) (w : World) :
  canStart (comp w) = true ->
  let params := paramsOf (comp w) in
  let submit := settle REQUEST_TIMEOUT_MS (mutationNetwork api params) in
  let shown := errorMessage (comp (onStart api w)) in
  (exceeds REQUEST_TIMEOUT_MS (mutationNetwork api params) ->
   shown = Some (Text timedOutMessage) /\ shown <> Some (Text genericMessage))
  /\ (submit = inr TimeoutError -> shown = Some (Text timedOutMessage))
  /\ (forall d m, submit = inr (OtherError d m) -> shown = Some (Text (failureText d m)))
  /\ (forall response, submit = inl response -> okWithResult response = true ->
      let reply := downloadFile api (result response) in
      (exceeds DOWNLOAD_TIMEOUT_MS reply -> shown = Some (Text timedOutMessage))
      /\ (settle DOWNLOAD_TIMEOUT_MS reply = inr TimeoutError ->
          shown = Some (Text timedOutMessage))
      /\ (forall d m, settle DOWNLOAD_TIMEOUT_MS reply = inr (OtherError d m) ->
          shown = Some (Text (failureText d m))))
  /\ timedOutMessage <> genericMessage.
Proof.
  intros Hc params submit shown. subst shown. rewrite (onStart_started _ _ Hc).
  fold params.
  assert (Hsub : forall e, submit = inr e ->
            errorMessage (comp (subscribe (pipeline api params) (beginRun w)))
            = Some (Text match e with
                         | TimeoutError => timedOutMessage
                         | OtherError d m => failureText d m
                         end)).
  { intros e He. rewrite (pipeline_submit_error _ _ _ _ He). apply shown_after_failure. }
  split.
  { intros Hx. apply settle_exceeds in Hx. rewrite (Hsub _ Hx). split; [done | discriminate]. }
  split; [intros He; apply (Hsub _ He)|].
  split; [intros d m He; apply (Hsub _ He)|].
  split; [|discriminate].
  intros response Hr Hok reply.
  assert (Hdl : forall e, settle DOWNLOAD_TIMEOUT_MS reply = inr e ->
            errorMessage (comp (subscribe (pipeline api params) (beginRun w)))
            = Some (Text match e with
                         | TimeoutError => timedOutMessage
                         | OtherError d m => failureText d m
                         end)).
  { intros e He. rewrite (pipeline_download_error _ _ _ _ _ Hr Hok He).
    apply shown_after_failure. }
  split; [intros Hx; apply settle_exceeds in Hx; apply (Hdl _ Hx)|].
  split; [intros He; apply (Hdl _ He) | intros d m He; apply (Hdl _ He)].
Qed.

Lemma failures_are_reported_witness :
  errorMessage (comp (onStart slowBackend readyWorld)) = Some (Text timedOutMessage)
  /\ errorMessage (comp (onStart refusingBackend readyWorld))
     = Some (Text "start_node not found")
  /\ errorMessage (comp (onStart deadDownloadBackend readyWorld))
     = Some (Text timedOutMessage).
Proof.
  split; [|split].
  - destruct (failures_are_reported slowBackend readyWorld eq_refl) as (H & _).
    apply H. reflexivity.
  - destruct (failures_are_reported refusingBackend readyWorld eq_refl) as (_ & _ & H & _).
    apply (H (Some (Parts ["start_node"; "not found"])) (Some "Http failure response")).
    reflexivity.
  - destruct (failures_are_reported deadDownloadBackend readyWorld eq_refl)
      as (_ & _ & _ & H & _).
    destruct (H (mkResponse "ok" "out.csv") eq_refl eq_refl) as (H' & _).
    apply H'. exact I.
Defined.

(** C8.  When the gate is closed - no completed upload, a blank saved file
    name, a blank (empty or white-space only) start or end sequence, or a
    run in progress - [onStart] returns with the component unchanged: no
    request is issued, nothing else is done, and the error message is left
    as it was. *)
Theorem closed_gate_blocks_start (api : Backend) (w : World) :
  uploadComplete (comp w) = false \/ trim (savedFileName (comp w)) = EmptyString
  \/ trim (startSequence (comp w)) = EmptyString
  \/ trim (endSequence (comp w)) = EmptyString
  \/ isProcessing (comp w) = true ->
  onStart api w = w
  /\ log (onStart api w) = log w
  /\ List.filter isNetworkCall (log (onStart api w)) = List.filter isNetworkCall (log w)
  /\ errorMessage (comp (onStart api w)) = errorMessage (comp w).
Proof.
  intros H. apply canStart_false_iff in H.
  rewrite (onStart_blocked _ _ H). done.
Qed.

Lemma closed_gate_blocks_start_witness :
  trim (startSequence (comp blankStartWorld)) = EmptyString
  /\ log (onStart goodBackend blankStartWorld) = []
  /\ errorMessage (comp (onStart goodBackend blankStartWorld))
     = Some (Text "earlier message").
Proof.
  split; [reflexivity|].
  destruct (closed_gate_blocks_start goodBackend blankStartWorld) as (_ & H1 & _ & H2).
  { right. right. left. reflexivity. }
  split; [exact H1 | exact H2].
Defined.

(** C9.  Every started run raises the processing flag and, whatever the
    two requests do - answer, fail, exceed their limit or never answer -
    ends with the flag down.  The same holds of the pipeline from any
    state and for any parameters. *)
Theorem processing_flag_is_cleared (api : Backend) (w : World) :
  canStart (comp w) = true ->
  isProcessing (comp (beginRun w)) = true
  /\ isProcessing (comp (onStart api w)) = false
  /\ (forall params w', isProcessing (comp (subscribe (pipeline api params) w')) = false).
Proof.
  intros Hc. split; [reflexivity|].
  split; [rewrite (onStart_started _ _ Hc)|intros params w']; apply pipeline_clears.
Qed.

Lemma processing_flag_is_cleared_witness :
  isProcessing (comp (onStart deadDownloadBackend readyWorld)) = false
  /\ isProcessing (comp (onStart refusingBackend readyWorld)) = false
  /\ isProcessing (comp (onStart goodBackend readyWorld)) = false.
Proof.
  split; [|split].
  - apply (processing_flag_is_cleared deadDownloadBackend readyWorld eq_refl).
  - apply (processing_flag_is_cleared refusingBackend readyWorld eq_refl).
  - apply (processing_flag_is_cleared goodBackend readyWorld eq_refl).
Defined.

(** [onDownload] asks for the file whenever a result name is known. *)
Lemma onDownload_calls api w :
  processedFileName (comp w) <> EmptyString ->
  exists rest,
    log (onDownload api w)
    = (log w ++ CallDownload (processedFileName (comp w)) :: rest)%list.
Proof.
  intros H. apply truthy_true in H. unfold onDownload. rewrite H. simpl.
  destruct (downloadFile api (processedFileName (comp w))) as [t blob|t e|]; simpl.
  - eexists. rewrite <- app_assoc. reflexivity.
  - by eexists.
  - by eexists.
Qed.

Lemma onDownload_idle api w :
  processedFileName (comp w) = EmptyString -> onDownload api w = w.
Proof. intros H. unfold onDownload. by rewrite H. Qed.

(** C10.  When the submit call answers in time with status "ok" and a
    non-empty result name, the stage before the download leaves
    [processedFileName] set to that name, having issued the submit call
    only; the name is still set when the run has ended, whatever the
    download did.  If the download timed out or failed, the run ends with
    the name set, an error message, no graph data and no file read; and
    after the run, in either case, [onDownload] requests the file by that
    name. *)
Theorem result_name_outlives_download (api : Backend) (w : World)
    (t : Z) (response : RunResponse) :
  canStart (comp w) = true ->
  mutationNetwork api (paramsOf (comp w)) = Answers t response ->
  t < REQUEST_TIMEOUT_MS ->
  status response = "ok" ->
  result response <> EmptyString ->
  let params := paramsOf (comp w) in
  let name := result response in
  let after := onStart api w in
  (exists w2, submitStage api params (beginRun w) = (inl response, w2)
     /\ processedFileName (comp w2) = name
     /\ log w2 = (log w ++ [CallRun params])%list)
  /\ processedFileName (comp after) = name
  /\ (forall e, settle DOWNLOAD_TIMEOUT_MS (downloadFile api name) = inr e ->
      processedFileName (comp after) = name
      /\ errorMessage (comp after) <> None
      /\ graphData (comp after) = None
      /\ log after = (log w ++ [CallRun params; CallDownload name; MarkForCheck])%list)
  /\ (forall api', exists rest,
      log (onDownload api' after) = (log after ++ CallDownload name :: rest)%list).
Proof.
  intros Hc Hr Ht Hs Hn params name after.
  assert (Hset : settle REQUEST_TIMEOUT_MS (mutationNetwork api params) = inl response).
  { subst params. rewrite Hr. by apply settle_answers_in_time. }
  assert (Hok : okWithResult response = true) by by apply okWithResult_true.
  assert (Hname : processedFileName (comp after) = name).
  { subst after. rewrite (onStart_started _ _ Hc). fold params.
    destruct (settle DOWNLOAD_TIMEOUT_MS (downloadFile api (result response)))
      as [blob|e] eqn:Hd.
    - by rewrite (pipeline_download_ok _ _ _ _ _ Hset Hok Hd).
    - rewrite (pipeline_download_error _ _ _ _ _ Hset Hok Hd).
      change (processedFileName (comp (snd (reportFailure e
                (emit (CallDownload (result response))
                   (setProcessedFileName (result response)
                      (emit (CallRun params) (beginRun w))))))) = name).
      by destruct (reportFailure_keeps e
                (emit (CallDownload (result response))
                   (setProcessedFileName (result response)
                      (emit (CallRun params) (beginRun w))))) as (-> & _). }
  split.
  { exists (setProcessedFileName name (emit (CallRun params) (beginRun w))).
    split; [|split; reflexivity].
    unfold submitStage, tap, timeout, run, rememberResult. simpl.
    fold params. rewrite Hset, Hok. reflexivity. }
  split; [exact Hname|].
  split.
  { intros e Hd. split; [exact Hname|].
    subst after. rewrite (onStart_started _ _ Hc). fold params.
    rewrite (pipeline_download_error _ _ _ _ _ Hset Hok Hd).
    split; [by rewrite shown_after_failure|].
    split.
    - change (graphData (comp (snd (reportFailure e
                (emit (CallDownload (result response))
                   (setProcessedFileName (result response)
                      (emit (CallRun params) (beginRun w))))))) = None).
      by destruct (reportFailure_keeps e
                (emit (CallDownload (result response))
                   (setProcessedFileName (result response)
                      (emit (CallRun params) (beginRun w))))) as (_ & -> & _).
    - rewrite log_clearProcessing, log_reportFailure. simpl.
      by rewrite <- !app_assoc. }
  intros api'. rewrite <- Hname. apply onDownload_calls. by rewrite Hname.
Qed.

Lemma result_name_outlives_download_witness :
  processedFileName (comp (onStart deadDownloadBackend readyWorld)) = "out.csv"
  /\ graphData (comp (onStart deadDownloadBackend readyWorld)) = None
  /\ exists rest,
       log (onDownload goodBackend (onStart deadDownloadBackend readyWorld))
       = (log (onStart deadDownloadBackend readyWorld) ++ CallDownload "out.csv" :: rest)%list.
Proof.
  assert (Ht : 10 < REQUEST_TIMEOUT_MS) by reflexivity.
  assert (Hn : "out.csv" <> EmptyString) by discriminate.
  destruct (result_name_outlives_download deadDownloadBackend readyWorld 10
              (mkResponse "ok" "out.csv") eq_refl eq_refl Ht eq_refl Hn)
    as (_ & H1 & H2 & H3).
  split; [exact H1|]. split.
  - destruct (H2 TimeoutError eq_refl) as (_ & _ & H & _). exact H.
  - exact (H3 goodBackend).
Defined.

(** A run whose two requests succeed: the file is handed to the reader,
    and the reader's [onload] stores the parsed graph. *)
Example good_run :
  let after := onStart goodBackend readyWorld in
  log after
  = [CallRun (mkParams "seqs.fasta" "AAAA" "AATT" 1 "csv"); CallDownload "out.csv";
     ReadAsText exampleText; MarkForCheck]
  /\ errorMessage (comp after) = None
  /\ isProcessing (comp after) = false
  /\ (steps <$> graphData (comp (readerOnload exampleText after)))
     = Some [mkStep "AAAA" "AAAT" 1; mkStep "AAAT" "AATT" 2].
Proof. repeat split; vm_compute; reflexivity. Qed.

End ComponentClaims.

(** ** Further facts about lines, cells and rows *)

Module TextFacts.
Import JsString JsStringFacts Service Reference Notions RowFacts GraphFacts ParserFacts.

Lemma split_cons_inv s c : exists h t, split s c = h :: t.
Proof.
  induction s as [|d s (h & t & IH)]; simpl; [by eauto|].
  destruct (Ascii.eqb d c); [by eauto|]. rewrite IH. by eauto.
Qed.

(** Cutting a text at one separator cuts the list of its pieces. *)
Lemma split_app s c t : split (s +:+ String c t) c = (split s c ++ split t c)%list.
Proof.
  induction s as [|d s IH].
  - change (EmptyString +:+ String c t) with (String c t). simpl.
    by rewrite Ascii.eqb_refl.
  - rewrite app_cons. simpl. rewrite IH.
    destruct (Ascii.eqb d c); [reflexivity|].
    destruct (split_cons_inv s c) as (h & u & ->). reflexivity.
Qed.

Lemma nonBlankLines_app a b :
  nonBlankLines (a +:+ String newline b) = (nonBlankLines a ++ nonBlankLines b)%list.
Proof. unfold nonBlankLines. by rewrite split_app, List.filter_app. Qed.

Lemma nonBlankLines_blank blank :
  includes blank newline = false -> trim blank = EmptyString -> nonBlankLines blank = [].
Proof.
  intros Hn Hb. unfold nonBlankLines. rewrite (split_none _ _ Hn). simpl. by rewrite Hb.
Qed.

(** [parseResultCsv] sees its text only through the non-blank lines. *)
Lemma parse_by_lines c1 c2 :
  nonBlankLines c1 = nonBlankLines c2 -> parseResultCsv c1 = parseResultCsv c2.
Proof. intros H. unfold parseResultCsv. by rewrite H. Qed.

Lemma trimStart_app s t :
  trimStart (s +:+ t)
  = match trimStart s with
    | EmptyString => trimStart t
    | String c u => String c u +:+ t
    end.
Proof.
  induction s as [|d s IH]; [reflexivity|].
  rewrite app_cons. simpl. destruct (isWhiteSpace d); [exact IH | reflexivity].
Qed.

Lemma trimEnd_snoc_space s c :
  isWhiteSpace c = true -> trimEnd (s +:+ String c EmptyString) = trimEnd s.
Proof.
  intros Hc. induction s as [|d s IH].
  - simpl. by rewrite Hc.
  - rewrite app_cons. simpl. by rewrite IH.
Qed.

(** White space added at the end of a string is trimmed away. *)
Lemma trim_snoc_space s c :
  isWhiteSpace c = true -> trim (s +:+ String c EmptyString) = trim s.
Proof.
  intros Hc. unfold trim. rewrite trimStart_app.
  destruct (trimStart s) as [|d u].
  - simpl. by rewrite Hc.
  - by rewrite trimEnd_snoc_space.
Qed.

Lemma consHead_empty pieces h t : pieces = h :: t -> consHead EmptyString pieces = pieces.
Proof. by intros ->. Qed.

(** On a row without quotes the tokenizer, started between two cells or
    inside an unquoted one, cuts at every separator and trims. *)
Lemma parseRowFrom_quote_free sep r cur line :
  includes line dquote = false ->
  parseRowFrom sep (mkRow r false cur) line
  = (r ++ List.map trim (consHead cur (split line sep)))%list.
Proof.
  revert r cur. induction line as [|c line IH]; intros r cur H.
  - unfold parseRowFrom. simpl. by rewrite app_empty_r.
  - simpl in H. apply orb_false_elim in H as [Hc Hl].
    unfold parseRowFrom. rewrite parseRowLoop_cons.
    change (parseRowFrom sep (parseRowStep sep (mkRow r false cur) c) line
            = (r ++ List.map trim (consHead cur (split (String c line) sep)))%list).
    unfold parseRowStep. cbn [inQuotes result current negb]. rewrite Hc, andb_true_r.
    simpl split. destruct (Ascii.eqb c sep).
    + rewrite (IH _ _ Hl). destruct (split_cons_inv line sep) as (h & t & E).
      rewrite (consHead_empty _ _ _ E). simpl. rewrite app_empty_r, <- app_assoc.
      reflexivity.
    + rewrite (IH _ _ Hl). destruct (split_cons_inv line sep) as (h & t & ->).
      simpl. by rewrite app_snoc_assoc.
Qed.

Lemma parseRow_quote_free sep line :
  includes line dquote = false -> parseRow sep line = List.map trim (split line sep).
Proof.
  intros H. unfold parseRow. rewrite (parseRowFrom_quote_free _ _ _ _ H).
  destruct (split_cons_inv line sep) as (h & t & ->). reflexivity.
Qed.

(** A white-space character that is not the separator, added at the end
    of a row, changes no cell. *)
Lemma parseRow_snoc_space sep line c :
  isWhiteSpace c = true -> c <> sep ->
  parseRow sep (line +:+ String c EmptyString) = parseRow sep line.
Proof.
  intros Hw Hs. unfold parseRow, parseRowFrom. rewrite parseRowLoop_app.
  set (st := parseRowLoop sep (mkRow [] false EmptyString) line).
  rewrite parseRowLoop_cons.
  assert (E : parseRowStep sep st c
              = mkRow (result st) (inQuotes st) (current st +:+ String c EmptyString)).
  { unfold parseRowStep.
    destruct (Ascii.eqb_spec c dquote) as [->|_]; [discriminate|].
    apply Ascii.eqb_neq in Hs. by rewrite Hs. }
  rewrite E. simpl. by rewrite trim_snoc_space.
Qed.

(** A truthy field is one of the cells of the row. *)
Lemma field_truthy cols i : truthy (field cols i) = true -> field cols i ∈ cols.
Proof.
  unfold field, at_. destruct (i <? 0); [done|].
  destruct (cols !! Z.to_nat i) as [cell|] eqn:E; [|done].
  intros _. simpl. by eapply list_elem_of_lookup_2.
Qed.

(** The steps of any text are steps of some of its lines. *)
Lemma steps_from_rows content s :
  s ∈ steps (parseResultCsv content) ->
  exists sep f t c line, rowStep sep f t c line = Some s.
Proof.
  destruct (nonBlankLines content) as [|header rows] eqn:E.
  - unfold parseResultCsv. rewrite E. simpl. by intros H%elem_of_nil.
  - rewrite (steps_unfold _ _ _ E), readRows_omap. intros H.
    apply list_elem_of_omap in H as (line & _ & H). by eauto 10.
Qed.

Lemma length_insertUnseen acc qs :
  (length acc <= length (insertUnseen acc qs) <= length acc + length qs)%nat.
Proof.
  revert acc. induction qs as [|q qs IH]; intros acc; simpl; [lia|].
  destruct (decide (q ∈ acc)).
  - specialize (IH acc). lia.
  - specialize (IH (acc ++ [q])%list). rewrite length_app in IH. simpl in IH. lia.
Qed.

Lemma chained_sources prev ss s :
  chained prev ss -> s ∈ ss ->
  fromSequence s = prev \/ fromSequence s ∈ List.map toSequence ss.
Proof.
  revert prev. induction ss as [|s0 ss IH]; intros prev H Hs; [by apply elem_of_nil in Hs|].
  destruct H as [H0 Hc]. apply elem_of_cons in Hs as [->|Hs]; [by left|].
  right. simpl. destruct (IH _ Hc Hs) as [->|Hin]; [by left | by right].
Qed.

Lemma elem_of_map_to s ss : s ∈ ss -> toSequence s ∈ List.map toSequence ss.
Proof.
  intros H. change (List.map toSequence ss) with (toSequence <$> ss).
  by apply list_elem_of_fmap_2.
Qed.

Lemma node_ids ss : List.map id (b_nodes (buildGraph ss)) = discoveryOrder ss.
Proof.
  destruct (buildGraph_spec ss) as ([_ _ Hx] & Hn & _). rewrite <- Hn.
  apply list_eq. intros i.
  change (List.map id (b_nodes (buildGraph ss))) with (id <$> b_nodes (buildGraph ss)).
  change (List.map sequence (b_nodes (buildGraph ss)))
    with (sequence <$> b_nodes (buildGraph ss)).
  rewrite !list_lookup_fmap. destruct (b_nodes (buildGraph ss) !! i) as [n|] eqn:E;
    [|reflexivity].
  simpl. f_equal. by apply (Hx i).
Qed.

Lemma elem_of_node_ids ss q :
  q ∈ List.map id (b_nodes (buildGraph ss)) <-> q ∈ candidates ss.
Proof.
  rewrite node_ids. unfold discoveryOrder. rewrite insertUnseen_elem, elem_of_nil. tauto.
Qed.

End TextFacts.

(** ** The parser: further properties *)

Module ParserProperties.
Import JsString JsStringFacts Service Reference Notions RowFacts GraphFacts ParserFacts
  TextFacts.

(** X1.  A text with fewer than two non-blank lines - empty, blank, or a
    header alone - gives the empty graph data; so does every text without a
    newline. *)
Theorem short_text_gives_empty_graph (content : string) :
  (length (nonBlankLines content) < 2)%nat \/ includes content newline = false ->
  parseResultCsv content = emptyGraphData.
Proof.
  intros H.
  assert (Hl : (length (nonBlankLines content) < 2)%nat).
  { destruct H as [H|H]; [exact H|]. unfold nonBlankLines.
    rewrite (split_none _ _ H). simpl. destruct (truthy (trim content)); simpl; lia. }
  unfold parseResultCsv. apply Nat.ltb_lt in Hl. by rewrite Hl.
Qed.

Lemma short_text_gives_empty_graph_witness :
  parseResultCsv "From_Sequence,To_Sequence,Transition_Cost" = emptyGraphData
  /\ parseResultCsv (String newline (String tab (String newline " "))) = emptyGraphData.
Proof.
  split.
  - apply short_text_gives_empty_graph. right. reflexivity.
  - apply short_text_gives_empty_graph. left. vm_compute. lia.
Defined.

(** X2.  Without steps the graph has no node; with steps it has at least
    one node and at most one more than it has steps. *)
Theorem node_count_bounds (ss : list MutationPathStep) (content : string) :
  b_nodes (buildGraph []) = []
  /\ (Nat.min 1 (length ss) <= length (b_nodes (buildGraph ss))
      <= length ss + Nat.min 1 (length ss))%nat
  /\ (Nat.min 1 (length (steps (parseResultCsv content)))
      <= length (nodes (parseResultCsv content))
      <= length (steps (parseResultCsv content))
         + Nat.min 1 (length (steps (parseResultCsv content))))%nat.
Proof.
  assert (H : forall ss,
    (Nat.min 1 (length ss) <= length (b_nodes (buildGraph ss))
     <= length ss + Nat.min 1 (length ss))%nat).
  { clear. intros ss. destruct (buildGraph_spec ss) as (_ & Hn & _).
    apply (f_equal length) in Hn. rewrite length_map in Hn. rewrite Hn.
    unfold discoveryOrder, candidates. destruct ss as [|s ss]; [simpl; lia|].
    cbn [insertUnseen]. destruct (decide (fromSequence s ∈ [])) as [Hin|_];
      [by apply elem_of_nil in Hin|].
    pose proof (length_insertUnseen ([] ++ [fromSequence s])%list
                  (List.map toSequence (s :: ss))) as Hb.
    rewrite length_map in Hb. simpl in *. lia. }
  split; [reflexivity|]. split; [apply H|].
  destruct (graph_unfold content) as [-> _]. apply H.
Qed.

(** X3.  Every returned step has a non-empty from and to sequence, both
    trimmed and without quote character. *)
Theorem steps_are_clean (content : string) :
  Forall (fun s =>
            fromSequence s <> EmptyString /\ toSequence s <> EmptyString
            /\ trim (fromSequence s) = fromSequence s /\ trim (toSequence s) = toSequence s
            /\ includes (fromSequence s) dquote = false
            /\ includes (toSequence s) dquote = false)
         (steps (parseResultCsv content)).
Proof.
  apply Forall_forall. intros s Hs.
  destruct (steps_from_rows _ _ Hs) as (sep & f & t & c & line & H).
  unfold rowStep in H.
  destruct (truthy (field (parseRow sep line) f)) eqn:Hf; [|done].
  destruct (truthy (field (parseRow sep line) t)) eqn:Ht; [|done].
  injection H as <-. simpl.
  pose proof (parseRow_no_quote sep line) as Hq. rewrite Forall_forall in Hq.
  split; [by apply truthy_true|]. split; [by apply truthy_true|].
  split; [apply field_trimmed|]. split; [apply field_trimmed|].
  split; apply Hq; by apply field_truthy.
Qed.

(** X4.  Every link ends at a node of the graph, and the first link
    starts at one. *)
Theorem link_targets_are_nodes (ss : list MutationPathStep) (content : string) :
  let ids := List.map id (b_nodes (buildGraph ss)) in
  let g := parseResultCsv content in
  Forall (fun l => target l ∈ ids) (b_links (buildGraph ss))
  /\ Forall (fun l => source l ∈ ids) (take 1 (b_links (buildGraph ss)))
  /\ Forall (fun l => target l ∈ List.map id (nodes g)) (links g)
  /\ Forall (fun l => source l ∈ List.map id (nodes g)) (take 1 (links g)).
Proof.
  assert (H : forall ss,
    Forall (fun l => target l ∈ List.map id (b_nodes (buildGraph ss)))
      (b_links (buildGraph ss))
    /\ Forall (fun l => source l ∈ List.map id (b_nodes (buildGraph ss)))
         (take 1 (b_links (buildGraph ss)))).
  { clear. intros ss. destruct (buildGraph_spec ss) as (_ & _ & ->). split.
    - apply Forall_forall. intros l Hl.
      change (List.map linkOf ss) with (linkOf <$> ss) in Hl.
      apply list_elem_of_fmap in Hl as (s & -> & Hs). simpl.
      apply elem_of_node_ids. destruct ss as [|s0 ss]; [by apply elem_of_nil in Hs|].
      simpl. right. by apply (elem_of_map_to s (s0 :: ss)).
    - destruct ss as [|s ss]; simpl; [constructor|].
      repeat constructor. simpl. apply elem_of_node_ids. simpl. by left. }
  intros ids g. destruct (H ss) as [H1 H2]. split; [exact H1|]. split; [exact H2|].
  destruct (graph_unfold content) as [Gn Gl]. fold g in Gn, Gl. rewrite Gn, Gl.
  apply H.
Qed.

(** X5.  When the steps form a walk - each step starts where the previous
    one ended - both ends of every link are nodes of the graph. *)
Theorem walk_links_join_nodes (ss : list MutationPathStep) :
  contiguous ss ->
  Forall (fun l => source l ∈ List.map id (b_nodes (buildGraph ss))
                   /\ target l ∈ List.map id (b_nodes (buildGraph ss)))
         (b_links (buildGraph ss)).
Proof.
  intros Hc. destruct (buildGraph_spec ss) as (_ & _ & Hl). rewrite Hl.
  apply Forall_forall. intros l Hin.
  change (List.map linkOf ss) with (linkOf <$> ss) in Hin.
  apply list_elem_of_fmap in Hin as (s & -> & Hs). simpl.
  rewrite !elem_of_node_ids.
  destruct ss as [|s0 ss]; [by apply elem_of_nil in Hs|]. simpl in *.
  split; [|right; by apply (elem_of_map_to s (s0 :: ss))].
  apply elem_of_cons in Hs as [->|Hs]; [by left|].
  right. destruct (chained_sources _ _ _ Hc Hs) as [->|H]; [by left | by right].
Qed.

Lemma walk_links_join_nodes_witness :
  Forall (fun l => source l ∈ ["AAAA"; "AAAT"; "AATT"] /\ target l ∈ ["AAAA"; "AAAT"; "AATT"])
         [mkLink "AAAA" "AAAT" 1; mkLink "AAAT" "AATT" 2].
Proof.
  apply (walk_links_join_nodes [mkStep "AAAA" "AAAT" 1; mkStep "AAAT" "AATT" 2]).
  simpl. done.
Defined.

(** X6.  On a row without quote characters the tokenizer is "split at
    the separator, then trim every piece".  With a tab in the header the
    separator is the tab, so commas stay inside the cells; without one it
    is the comma. *)
Theorem quote_free_row_is_split (header row : string) :
  includes row dquote = false ->
  (forall sep, parseRow sep row = List.map trim (split row sep))
  /\ (includes header tab = true ->
      parseRow (detectSep header) row = List.map trim (split row tab))
  /\ (includes header tab = false ->
      parseRow (detectSep header) row = List.map trim (split row comma)).
Proof.
  intros H. split; [intros sep; by apply parseRow_quote_free|].
  unfold detectSep. split; intros ->; by apply parseRow_quote_free.
Qed.

Lemma quote_free_row_is_split_witness :
  parseRow (detectSep (String "a" (String tab "b"))) (String "x" (String tab " y,z "))
  = ["x"; "y,z"].
Proof.
  destruct (quote_free_row_is_split (String "a" (String tab "b"))
              (String "x" (String tab " y,z ")) eq_refl) as (_ & H & _).
  rewrite (H eq_refl). vm_compute. reflexivity.
Defined.

(** X7.  Blank lines do not count: a blank line between two parts of a
    text, a blank last line and a newline at the end of the text change
    nothing in the result. *)
Theorem blank_lines_are_ignored (a blank b : string) :
  includes blank newline = false -> trim blank = EmptyString ->
  parseResultCsv (a +:+ String newline (blank +:+ String newline b))
  = parseResultCsv (a +:+ String newline b)
  /\ parseResultCsv (a +:+ String newline blank) = parseResultCsv a
  /\ parseResultCsv (a +:+ String newline EmptyString) = parseResultCsv a.
Proof.
  intros Hn Hb. pose proof (nonBlankLines_blank _ Hn Hb) as E.
  split; [|split]; apply parse_by_lines.
  - by rewrite !nonBlankLines_app, E.
  - by rewrite nonBlankLines_app, E, List.app_nil_r.
  - rewrite nonBlankLines_app. change (nonBlankLines EmptyString) with (@nil string).
    by rewrite List.app_nil_r.
Qed.

Lemma blank_lines_are_ignored_witness :
  parseResultCsv ("a,b,c" +:+ String newline ("  " +:+ String newline "AAAA,AAAT,1"))
  = parseResultCsv ("a,b,c" +:+ String newline "AAAA,AAAT,1").
Proof.
  destruct (blank_lines_are_ignored "a,b,c" "  " "AAAA,AAAT,1" eq_refl eq_refl) as (H & _).
  exact H.
Defined.

(** X8.  A carriage return at the end of a data row (a CRLF line ending)
    changes neither its cells nor the step it gives. *)
Theorem carriage_return_is_trimmed (header row : string) (fromIdx toIdx costIdx : Z) :
  let sep := detectSep header in
  let crRow := row +:+ String carriageReturn EmptyString in
  parseRow sep crRow = parseRow sep row
  /\ rowStep sep fromIdx toIdx costIdx crRow = rowStep sep fromIdx toIdx costIdx row.
Proof.
  intros sep crRow.
  assert (E : parseRow sep crRow = parseRow sep row).
  { apply parseRow_snoc_space; [reflexivity|].
    subst sep. destruct (detectSep_cases header) as [-> | ->]; discriminate. }
  split; [exact E|]. unfold rowStep. by rewrite E.
Qed.

(** X9.  The fallback positions are not checked against the named
    columns: when the first header cell is [to_sequence] and no cell is
    [from_sequence], both sequences are read from the first column, so
    every returned step starts and ends at the same sequence. *)
Theorem fallback_may_reuse_a_named_column (content header : string) (rows : list string) :
  nonBlankLines content = header :: rows ->
  headerTokens header (detectSep header) !! 0%nat = Some "to_sequence" ->
  "from_sequence" ∉ headerTokens header (detectSep header) ->
  Forall (fun s => fromSequence s = toSequence s) (steps (parseResultCsv content)).
Proof.
  intros H H0 Hf. rewrite (steps_unfold _ _ _ H), readRows_omap.
  set (hs := headerTokens header (detectSep header)) in *.
  assert (Ef : fromIdxOf hs = 0) by by apply resolveColumn_absent.
  assert (Et : toIdxOf hs = 0).
  { unfold toIdxOf.
    destruct (resolveColumn_present hs "to_sequence" 1) as (k & -> & _ & Hk).
    { by eapply list_elem_of_lookup_2. }
    destruct k as [|k]; [reflexivity|]. exfalso. apply (Hk 0%nat); [lia | exact H0]. }
  rewrite Ef, Et. apply Forall_forall. intros s Hs.
  apply list_elem_of_omap in Hs as (line & _ & Hs). unfold rowStep in Hs.
  destruct (truthy _ && truthy _); [|done]. by injection Hs as <-.
Qed.

Lemma fallback_may_reuse_a_named_column_witness :
  steps (parseResultCsv ("To_Sequence,Start,Cost" +:+ String newline "AAAT,AAAA,1"))
  = [mkStep "AAAT" "AAAT" 1].
Proof.
  pose proof (fallback_may_reuse_a_named_column
                ("To_Sequence,Start,Cost" +:+ String newline "AAAT,AAAA,1")
                "To_Sequence,Start,Cost" ["AAAT,AAAA,1"] eq_refl eq_refl) as H.
  assert (Hf : "from_sequence" ∉ headerTokens "To_Sequence,Start,Cost"
                                   (detectSep "To_Sequence,Start,Cost")).
  { intros Hin. vm_compute in Hin.
    repeat (apply elem_of_cons in Hin as [Hin|Hin]; [discriminate|]).
    by apply elem_of_nil in Hin. }
  specialize (H Hf). vm_compute. reflexivity.
Defined.

(** X10.  Appending a step to a non-empty list of steps appends its link
    and, only when its [toSequence] is not yet the id of a node, one node
    for it with the next index; no earlier node or link changes.  A
    repeated transition thus adds a parallel link and no node. *)
Theorem appending_a_step (ss : list MutationPathStep) (s : MutationPathStep) :
  ss <> [] ->
  let b := buildGraph ss in
  let q := toSequence s in
  b_nodes (buildGraph (ss ++ [s]))
  = (b_nodes b ++ if decide (q ∈ List.map id (b_nodes b)) then []
                  else [mkNode q q (Z.of_nat (length (b_nodes b)))])%list
  /\ b_links (buildGraph (ss ++ [s])) = (b_links b ++ [linkOf s])%list.
Proof.
  intros Hne. cbv zeta.
  assert (E : buildGraph (ss ++ [s]) = visitStep (buildGraph ss) s).
  { unfold buildGraph. rewrite fold_left_app. simpl.
    destruct ss as [|s0 ss]; [done | reflexivity]. }
  rewrite E. destruct (buildGraph_spec ss) as (Hok & Hn & _).
  assert (Hids : List.map id (b_nodes (buildGraph ss))
                 = List.map sequence (b_nodes (buildGraph ss))).
  { by rewrite node_ids, Hn. }
  rewrite Hids. clear E Hn Hids.
  pose proof (ok_seen _ Hok (toSequence s)) as Hseen. pose proof (ok_idx _ Hok) as Hidx.
  unfold visitStep, discover.
  destruct (decide (toSequence s ∈ b_seen (buildGraph ss))) as [Hin|Hin];
    destruct (decide (toSequence s ∈ List.map sequence (b_nodes (buildGraph ss))))
      as [Hin'|Hin']; simpl.
  - by rewrite List.app_nil_r.
  - by apply Hseen in Hin.
  - by apply Hseen in Hin'.
  - by rewrite Hidx.
Qed.

Lemma appending_a_step_witness :
  b_nodes (buildGraph [mkStep "A" "B" 1; mkStep "B" "A" 2; mkStep "A" "B" 1])
  = [mkNode "A" "A" 0; mkNode "B" "B" 1]
  /\ length (b_links (buildGraph [mkStep "A" "B" 1; mkStep "B" "A" 2; mkStep "A" "B" 1]))
     = 3%nat.
Proof.
  assert (Hne : [mkStep "A" "B" 1; mkStep "B" "A" 2] <> []) by discriminate.
  destruct (appending_a_step [mkStep "A" "B" 1; mkStep "B" "A" 2] (mkStep "A" "B" 1) Hne)
    as [Hn Hl].
  split.
  - etrans; [exact Hn|]. vm_compute. reflexivity.
  - change ([mkStep "A" "B" 1; mkStep "B" "A" 2; mkStep "A" "B" 1])
      with ([mkStep "A" "B" 1; mkStep "B" "A" 2] ++ [mkStep "A" "B" 1])%list.
    rewrite Hl. vm_compute. reflexivity.
Defined.

(** X24.  A data row with too few cells for the from or the to column
    gives no step.  A row whose from and to cells are not empty and which
    has no cell at the cost column gives the step of these two sequences
    with cost 0. *)
Theorem short_row_is_dropped (sep : ascii) (fromIdx toIdx costIdx : Z) (row : string) :
  let cols := parseRow sep row in
  (Z.of_nat (length cols) <= fromIdx \/ Z.of_nat (length cols) <= toIdx ->
   rowStep sep fromIdx toIdx costIdx row = None)
  /\ (field cols fromIdx <> EmptyString -> field cols toIdx <> EmptyString ->
      Z.of_nat (length cols) <= costIdx ->
      rowStep sep fromIdx toIdx costIdx row
      = Some (mkStep (field cols fromIdx) (field cols toIdx) 0)).
Proof.
  intros cols.
  assert (Hat : forall i, Z.of_nat (length cols) <= i -> at_ cols i = None).
  { intros i Hi. unfold at_. destruct (Z.ltb_spec i 0); [reflexivity|].
    apply lookup_ge_None. lia. }
  split.
  - intros [H|H]; unfold rowStep, field; fold cols; rewrite (Hat _ H); simpl;
      [reflexivity | by rewrite andb_false_r].
  - intros Hf Ht H. apply truthy_true in Hf, Ht. unfold rowStep. fold cols.
    rewrite Hf, Ht. simpl. unfold costOf. by rewrite (Hat _ H).
Qed.

Lemma short_row_is_dropped_witness :
  rowStep comma 0 1 2 "AAAA" = None
  /\ rowStep comma 0 1 2 "AAAA,AAAT" = Some (mkStep "AAAA" "AAAT" 0).
Proof.
  split.
  - destruct (short_row_is_dropped comma 0 1 2 "AAAA") as [H _].
    apply H. right. vm_compute. discriminate.
  - destruct (short_row_is_dropped comma 0 1 2 "AAAA,AAAT") as [_ H].
    apply H; [discriminate | discriminate | vm_compute; discriminate].
Defined.

End ParserProperties.

(** ** The component: further properties *)

Module ComponentProperties.
Import JsString JsStringFacts Service Component Reference Notions Handlers PipelineFacts.

(** Where a run ends, by what the two requests settle to. *)
Lemma pipeline_cases api p w :
  subscribe (pipeline api p) w
  = match settle REQUEST_TIMEOUT_MS (mutationNetwork api p) with
    | inr e => clearProcessing (snd (reportFailure e (emit (CallRun p) w)))
    | inl response =>
        if okWithResult response then
          let w2 := emit (CallDownload (result response))
                      (setProcessedFileName (result response) (emit (CallRun p) w)) in
          match settle DOWNLOAD_TIMEOUT_MS (downloadFile api (result response)) with
          | inr e => clearProcessing (snd (reportFailure e w2))
          | inl blob => clearProcessing (handleDownloadedResult blob (result response) w2)
          end
        else clearProcessing (emit (CallRun p) w)
    end.
Proof.
  destruct (settle REQUEST_TIMEOUT_MS (mutationNetwork api p)) as [response|e] eqn:H;
    [|by apply (pipeline_submit_error _ _ _ _ H)].
  destruct (okWithResult response) eqn:Hok; [|by apply (pipeline_no_result _ _ _ _ H)].
  cbv zeta.
  destruct (settle DOWNLOAD_TIMEOUT_MS (downloadFile api (result response)))
    as [blob|e] eqn:Hd.
  - by apply (pipeline_download_ok _ _ _ _ _ H Hok).
  - by apply (pipeline_download_error _ _ _ _ _ H Hok).
Qed.

Lemma networkCalls_emit e w :
  networkCalls (emit e w) = (networkCalls w ++ if isNetworkCall e then [e] else [])%list.
Proof. unfold networkCalls, emit. simpl. rewrite List.filter_app. simpl. by destruct (isNetworkCall e). Qed.

Lemma networkCalls_reportFailure e w : networkCalls (snd (reportFailure e w)) = networkCalls w.
Proof. unfold networkCalls. by rewrite log_reportFailure. Qed.

Lemma networkCalls_clearProcessing w : networkCalls (clearProcessing w) = networkCalls w.
Proof.
  unfold clearProcessing. rewrite networkCalls_emit. simpl. by rewrite List.app_nil_r.
Qed.

Lemma inputs_of_run api p w :
  inputsOf (comp (subscribe (pipeline api p) w)) = inputsOf (comp w).
Proof.
  rewrite pipeline_cases.
  destruct (settle REQUEST_TIMEOUT_MS (mutationNetwork api p)) as [response|e];
    [|by destruct e].
  destruct (okWithResult response); [|reflexivity]. cbv zeta.
  destruct (settle DOWNLOAD_TIMEOUT_MS (downloadFile api (result response))) as [blob|e];
    [reflexivity | by destruct e].
Qed.

Lemma canStart_by_inputs s s' :
  inputsOf s' = inputsOf s -> isProcessing s' = isProcessing s -> canStart s' = canStart s.
Proof.
  unfold inputsOf, canStart. intros [= -> -> -> -> _ _] ->. reflexivity.
Qed.

(** X11.  A run changes none of the inputs of the gate (upload state,
    file name, sequences, distance, format), and when it has ended the
    gate is open again: the component can be started anew after success
    and after every failure. *)
Theorem gate_reopens_after_run (api : Backend) (w : World) :
  canStart (comp w) = true ->
  inputsOf (comp (onStart api w)) = inputsOf (comp w)
  /\ canStart (comp (onStart api w)) = true.
Proof.
  intros Hc. rewrite (onStart_started _ _ Hc).
  assert (Hi : inputsOf (comp (subscribe (pipeline api (paramsOf (comp w))) (beginRun w)))
               = inputsOf (comp w)) by by rewrite inputs_of_run.
  split; [exact Hi|]. rewrite <- Hc. apply canStart_by_inputs; [exact Hi|].
  rewrite pipeline_clears. unfold canStart in Hc.
  apply andb_true_iff in Hc as [_ Hc]. by apply negb_true_iff in Hc.
Qed.

Lemma gate_reopens_after_run_witness :
  canStart (comp (onStart refusingBackend readyWorld)) = true
  /\ canStart (comp (onStart deadDownloadBackend readyWorld)) = true.
Proof.
  split.
  - apply (gate_reopens_after_run refusingBackend readyWorld eq_refl).
  - apply (gate_reopens_after_run deadDownloadBackend readyWorld eq_refl).
Defined.

(** X12.  While a run is in progress - from the moment it is started, and
    still after the submit call has been answered and the download is
    awaited - the processing flag is up and a further [onStart] does
    nothing. *)
Theorem start_is_blocked_during_run (api api' : Backend) (w : World) :
  let during := snd (submitStage api (paramsOf (comp w)) (beginRun w)) in
  isProcessing (comp (beginRun w)) = true
  /\ onStart api' (beginRun w) = beginRun w
  /\ isProcessing (comp during) = true
  /\ onStart api' during = during.
Proof.
  intros during.
  assert (H1 : isProcessing (comp (beginRun w)) = true) by reflexivity.
  assert (H2 : isProcessing (comp during) = true).
  { subst during. unfold submitStage, tap, timeout, rememberResult. simpl.
    destruct (settle REQUEST_TIMEOUT_MS _) as [response|e]; [|reflexivity].
    simpl. by destruct (okWithResult response). }
  repeat split; try done; apply onStart_blocked, canStart_false_iff; tauto.
Qed.

(** X13.  A started run issues the submit call once, and the download
    once and only after a response that came in time with status "ok" and a
    result name; no request is repeated, whatever the outcome. *)
Theorem requests_of_a_run (api : Backend) (w : World) :
  canStart (comp w) = true ->
  let p := paramsOf (comp w) in
  networkCalls (onStart api w)
  = (networkCalls w ++
     CallRun p ::
     match settle REQUEST_TIMEOUT_MS (mutationNetwork api p) with
     | inl response => if okWithResult response then [CallDownload (result response)] else []
     | inr _ => []
     end)%list.
Proof.
  intros Hc p. rewrite (onStart_started _ _ Hc). fold p. rewrite pipeline_cases.
  assert (Hb : networkCalls (emit (CallRun p) (beginRun w))
               = (networkCalls w ++ [CallRun p])%list) by by rewrite networkCalls_emit.
  destruct (settle REQUEST_TIMEOUT_MS (mutationNetwork api p)) as [response|e].
  - destruct (okWithResult response); cbv zeta.
    + assert (Hd : networkCalls
                     (emit (CallDownload (result response))
                        (setProcessedFileName (result response) (emit (CallRun p) (beginRun w))))
                   = (networkCalls w ++ [CallRun p; CallDownload (result response)])%list).
      { rewrite networkCalls_emit. simpl.
        change (networkCalls (setProcessedFileName (result response)
                                (emit (CallRun p) (beginRun w))))
          with (networkCalls (emit (CallRun p) (beginRun w))).
        by rewrite Hb, <- app_assoc. }
      destruct (settle DOWNLOAD_TIMEOUT_MS (downloadFile api (result response)))
        as [blob|e].
      * rewrite networkCalls_clearProcessing. unfold handleDownloadedResult.
        rewrite networkCalls_emit, Hd. simpl. by rewrite List.app_nil_r.
      * by rewrite networkCalls_clearProcessing, networkCalls_reportFailure, Hd.
    + by rewrite networkCalls_clearProcessing, Hb.
  - by rewrite networkCalls_clearProcessing, networkCalls_reportFailure, Hb.
Qed.

Lemma requests_of_a_run_witness :
  networkCalls (onStart deadDownloadBackend readyWorld)
  = [CallRun (mkParams "seqs.fasta" "AAAA" "AATT" 1 "csv"); CallDownload "out.csv"]
  /\ networkCalls (onStart slowBackend readyWorld)
     = [CallRun (mkParams "seqs.fasta" "AAAA" "AATT" 1 "csv")].
Proof.
  split.
  - apply (requests_of_a_run deadDownloadBackend readyWorld eq_refl).
  - apply (requests_of_a_run slowBackend readyWorld eq_refl).
Defined.

(** X14.  A run whose submit call yields no usable result - it fails,
    times out, or is answered without status "ok" or without a result
    name - ends with no result name and no graph data, even when an
    earlier run had left some; [onDownload] then does nothing. *)
Theorem run_without_result_discards_the_old_one (api api' : Backend) (w : World) :
  canStart (comp w) = true ->
  (forall response,
     settle REQUEST_TIMEOUT_MS (mutationNetwork api (paramsOf (comp w))) = inl response ->
     okWithResult response = false) ->
  let after := onStart api w in
  processedFileName (comp after) = EmptyString
  /\ graphData (comp after) = None
  /\ onDownload api' after = after.
Proof.
  intros Hc Hno after.
  assert (H : processedFileName (comp after) = EmptyString /\ graphData (comp after) = None).
  { subst after. rewrite (onStart_started _ _ Hc), pipeline_cases.
    destruct (settle REQUEST_TIMEOUT_MS _) as [response|e]; [|by destruct e].
    by rewrite (Hno response eq_refl). }
  destruct H as [Hp Hg]. repeat split; [exact Hp | exact Hg |].
  by apply ComponentClaims.onDownload_idle.
Qed.

Lemma run_without_result_discards_the_old_one_witness :
  processedFileName (comp usedWorld) = "old.csv"
  /\ processedFileName (comp (onStart refusingBackend usedWorld)) = EmptyString
  /\ onDownload goodBackend (onStart refusingBackend usedWorld)
     = onStart refusingBackend usedWorld.
Proof.
  split; [reflexivity|].
  destruct (run_without_result_discards_the_old_one refusingBackend goodBackend usedWorld
              eq_refl) as (H1 & _ & H3).
  { intros response H. discriminate H. }
  split; [exact H1 | exact H3].
Defined.

(** X15.  After a run whose two requests were answered in time, the
    component has issued the submit call, the download of the named result
    and the reading of the downloaded blob, in this order; it shows no
    error and still has no graph data: the graph is stored only when the
    reader has loaded, and is then the parse of the downloaded text. *)
Theorem successful_run (api : Backend) (w : World) (t t' : Z)
    (response : RunResponse) (blob : Blob) :
  canStart (comp w) = true ->
  mutationNetwork api (paramsOf (comp w)) = Answers t response ->
  t < REQUEST_TIMEOUT_MS ->
  okWithResult response = true ->
  downloadFile api (result response) = Answers t' blob ->
  t' < DOWNLOAD_TIMEOUT_MS ->
  let after := onStart api w in
  log after
  = (log w ++ [CallRun (paramsOf (comp w)); CallDownload (result response);
               ReadAsText blob; MarkForCheck])%list
  /\ errorMessage (comp after) = None
  /\ processedFileName (comp after) = result response
  /\ isProcessing (comp after) = false
  /\ graphData (comp after) = None
  /\ graphData (comp (readerOnload blob after)) = Some (parseResultCsv blob)
  /\ errorMessage (comp (readerOnload blob after)) = None.
Proof.
  intros Hc Hr Ht Hok Hd Ht' after. subst after.
  rewrite (onStart_started _ _ Hc), pipeline_cases, Hr, (settle_answers_in_time _ _ _ Ht),
    Hok.
  cbv zeta. rewrite Hd, (settle_answers_in_time _ _ _ Ht'). simpl.
  rewrite <- !app_assoc. done.
Qed.

Lemma successful_run_witness :
  graphData (comp (readerOnload exampleText (onStart goodBackend readyWorld)))
  = Some (parseResultCsv exampleText).
Proof.
  assert (H1 : 10 < REQUEST_TIMEOUT_MS) by reflexivity.
  assert (H2 : 5 < DOWNLOAD_TIMEOUT_MS) by reflexivity.
  destruct (successful_run goodBackend readyWorld 10 5 (mkResponse "ok" "out.csv")
              exampleText eq_refl eq_refl H1 eq_refl eq_refl H2)
    as (_ & _ & _ & _ & _ & H & _).
  exact H.
Defined.

(** X16.  [onDownload] changes neither the result name, the graph data,
    the processing flag nor the inputs of the gate, and issues one
    download request for the result name when there is one, and none when
    there is none. *)
Theorem onDownload_keeps_the_result (api : Backend) (w : World) :
  let after := onDownload api w in
  processedFileName (comp after) = processedFileName (comp w)
  /\ graphData (comp after) = graphData (comp w)
  /\ isProcessing (comp after) = isProcessing (comp w)
  /\ inputsOf (comp after) = inputsOf (comp w)
  /\ networkCalls after
     = (networkCalls w ++ if truthy (processedFileName (comp w))
                          then [CallDownload (processedFileName (comp w))] else [])%list.
Proof.
  intros after. subst after. unfold onDownload.
  destruct (truthy (processedFileName (comp w))); simpl; [|by rewrite List.app_nil_r].
  destruct (downloadFile api (processedFileName (comp w))) as [t blob|t e|]; simpl;
    unfold networkCalls; simpl; rewrite ?List.filter_app; simpl;
    rewrite <- ?app_assoc, ?List.app_nil_r; done.
Qed.

(** X17.  With a result name, [onDownload] has no time limit and no
    fallback to the error's own message: an answer, however late, is saved
    under the result name; a failure shows its detail when it has one (an
    array unjoined) and "Download failed" otherwise, also for a
    [TimeoutError]; a request that is never answered leaves the message
    as it was. *)
Theorem onDownload_outcomes (api : Backend) (w : World) :
  processedFileName (comp w) <> EmptyString ->
  let name := processedFileName (comp w) in
  let after := onDownload api w in
  (forall t blob, downloadFile api name = Answers t blob ->
     log after = (log w ++ [CallDownload name; SaveFile name blob])%list
     /\ errorMessage (comp after) = errorMessage (comp w))
  /\ (forall t d m, downloadFile api name = Fails t (OtherError d m) ->
      truthyMessage d = true ->
      errorMessage (comp after) = d /\ log after = (log w ++ [CallDownload name])%list)
  /\ (forall t d m, downloadFile api name = Fails t (OtherError d m) ->
      truthyMessage d = false ->
      errorMessage (comp after) = Some (Text downloadFailedMessage))
  /\ (forall t, downloadFile api name = Fails t TimeoutError ->
      errorMessage (comp after) = Some (Text downloadFailedMessage))
  /\ (downloadFile api name = Silent ->
      errorMessage (comp after) = errorMessage (comp w)
      /\ log after = (log w ++ [CallDownload name])%list).
Proof.
  intros Hn name after. subst after name. apply truthy_true in Hn.
  unfold onDownload. rewrite Hn. simpl.
  split; [intros t blob H; rewrite H; simpl; by rewrite <- app_assoc|].
  split; [intros t d m H Hd; rewrite H; simpl; unfold orJs; by rewrite Hd|].
  split; [intros t d m H Hd; rewrite H; simpl; unfold orJs; by rewrite Hd|].
  split; [intros t H; by rewrite H|].
  intros H. by rewrite H.
Qed.

Lemma onDownload_outcomes_witness :
  log (onDownload slowBackend usedWorld) = [CallDownload "old.csv"; SaveFile "old.csv" exampleText]
  /\ errorMessage (comp (onDownload refusingBackend usedWorld)) = None.
Proof.
  assert (Hn : processedFileName (comp usedWorld) <> EmptyString) by discriminate.
  split.
  - destruct (onDownload_outcomes slowBackend usedWorld Hn) as (H & _).
    destruct (H 5 exampleText eq_refl) as [Hl _]. exact Hl.
  - destruct (onDownload_outcomes refusingBackend usedWorld Hn) as (_ & _ & _ & _ & H).
    destruct (H eq_refl) as [He _]. exact He.
Defined.

End ComponentProperties.

(** ** The other handlers: properties *)

Module HandlerProperties.
Import JsString JsStringFacts Service Component Reference Notions Handlers Rendering
  Lifecycle GraphFacts ParserFacts TextFacts PipelineFacts.

Lemma trim_nonempty s : trim s <> EmptyString -> s <> EmptyString.
Proof. by intros H ->. Qed.

(** X18.  A completed upload with a saved file name is recorded and
    clears the message; the gate is then open exactly when the saved name
    and both sequences are non-blank and no run is in progress, and a start
    submits the saved name with the trimmed sequences, the distance and the
    format. *)
Theorem completed_upload_opens_gate (api : Backend) (w : World)
    (r : UploadResult.FileUploadResult) (name : string) :
  UploadResult.uploadComplete r = true ->
  UploadResult.savedFileName r = Some name ->
  name <> EmptyString ->
  let w' := onUploadComplete r w in
  let s := comp w in
  uploadComplete (comp w') = true
  /\ savedFileName (comp w') = name
  /\ errorMessage (comp w') = None
  /\ canStart (comp w')
     = truthy (trim name) && truthy (trim (startSequence s))
       && truthy (trim (endSequence s)) && negb (isProcessing s)
  /\ (canStart (comp w') = true ->
      exists rest,
        log (onStart api w')
        = (log w ++ CallRun (mkParams name (trim (startSequence s)) (trim (endSequence s))
                               (maxDistance s) (outputFormat s)) :: rest)%list).
Proof.
  intros Hu Hs Hn w' s. apply truthy_true in Hn.
  assert (E : w' = setErrorMessage None (setUpload true name w)).
  { subst w'. unfold onUploadComplete. rewrite Hu, Hs. simpl. by rewrite Hn. }
  rewrite E. repeat split.
  intros Hc. rewrite (onStart_started _ _ Hc).
  destruct (pipeline_calls_run api
              (paramsOf (comp (setErrorMessage None (setUpload true name w))))
              (beginRun (setErrorMessage None (setUpload true name w)))) as [rest Hr].
  exists rest. exact Hr.
Qed.

Lemma completed_upload_opens_gate_witness :
  canStart (comp freshWorld) = false
  /\ exists rest,
       log (onStart goodBackend
              (onUploadComplete (UploadResult.mkResult "a.fasta" true (Some "srv-1.fasta") None)
                 freshWorld))
       = CallRun (mkParams "srv-1.fasta" "AAAA" "AATT" 2 "tsv") :: rest.
Proof.
  split; [reflexivity|].
  assert (Hn : "srv-1.fasta" <> EmptyString) by discriminate.
  destruct (completed_upload_opens_gate goodBackend freshWorld
              (UploadResult.mkResult "a.fasta" true (Some "srv-1.fasta") None)
              "srv-1.fasta" eq_refl eq_refl Hn) as (_ & _ & _ & _ & H).
  exact (H eq_refl).
Defined.

(** X19.  An upload result that is not a completed upload with a saved
    name closes the gate when it carries an error: the upload is marked
    incomplete, the saved name is kept, the error is shown and a start
    does nothing.  Without an error the result is ignored. *)
Theorem failed_upload_closes_gate (api : Backend) (w : World)
    (r : UploadResult.FileUploadResult) :
  UploadResult.uploadComplete r && truthyOpt (UploadResult.savedFileName r) = false ->
  let w' := onUploadComplete r w in
  (forall e, UploadResult.error r = Some e -> e <> EmptyString ->
     uploadComplete (comp w') = false
     /\ savedFileName (comp w') = savedFileName (comp w)
     /\ errorMessage (comp w') = Some (Text e)
     /\ canStart (comp w') = false
     /\ onStart api w' = w')
  /\ (truthyOpt (UploadResult.error r) = false -> w' = w).
Proof.
  intros Hf w'. subst w'. unfold onUploadComplete. rewrite Hf. split.
  - intros e He Hne. apply truthy_true in Hne. rewrite He. simpl. rewrite Hne.
    repeat split.
  - by intros ->.
Qed.

Lemma failed_upload_closes_gate_witness :
  canStart (comp readyWorld) = true
  /\ onStart goodBackend
       (onUploadComplete (UploadResult.mkResult "b.fasta" false None (Some "too large"))
          readyWorld)
     = onUploadComplete (UploadResult.mkResult "b.fasta" false None (Some "too large"))
         readyWorld.
Proof.
  split; [reflexivity|].
  destruct (failed_upload_closes_gate goodBackend readyWorld
              (UploadResult.mkResult "b.fasta" false None (Some "too large")) eq_refl)
    as [H _].
  assert (Hn : "too large" <> EmptyString) by discriminate.
  destruct (H "too large" eq_refl Hn) as (_ & _ & _ & _ & H'). exact H'.
Defined.

(** X20.  Selecting a file records it and clears the result name, the
    graph data and the message, so that [onDownload] does nothing until
    the next run; it leaves the upload state and the gate as they were:
    the previously uploaded file can still be submitted. *)
Theorem file_selection_clears_the_result (api : Backend)
    (r : UploadResult.FileUploadResult) (x : Widget) :
  let x' := onFileSelected r x in
  selectedFile x' = Some (UploadResult.file r)
  /\ processedFileName (comp (world x')) = EmptyString
  /\ graphData (comp (world x')) = None
  /\ errorMessage (comp (world x')) = None
  /\ inputsOf (comp (world x')) = inputsOf (comp (world x))
  /\ canStart (comp (world x')) = canStart (comp (world x))
  /\ log (world x') = log (world x)
  /\ onDownload api (world x') = world x'.
Proof. repeat split. Qed.

(** The map from ids to nodes: a key is bound exactly when it is the id
    of a node, and then to a node with that id. *)
Lemma nodeById_fold (ns : list SimNode) (m : gmap string SimNode) (k : string) :
  (k ∈ List.map id ns ->
   exists n : SimNode,
     fold_left (fun (m : gmap string SimNode) (n : SimNode) => <[id n := n]> m) ns m !! k
     = Some n /\ id n = k /\ n ∈ ns)
  /\ (k ∉ List.map id ns ->
      fold_left (fun (m : gmap string SimNode) (n : SimNode) => <[id n := n]> m) ns m !! k
      = m !! k).
Proof.
  revert m. induction ns as [|x ns IH]; intros m; simpl.
  - split; [by intros H%elem_of_nil | done].
  - destruct (IH (<[id x := x]> m)) as [IH1 IH2].
    destruct (decide (k ∈ List.map id ns)) as [Hin|Hin].
    + split; [|intros Hn; exfalso; apply Hn; by right].
      intros _. destruct (IH1 Hin) as (n & Hl & Hid & Hn).
      exists n. repeat split; [done | done | by right].
    + split.
      * intros Hk. apply elem_of_cons in Hk as [->|Hk]; [|done].
        exists x. split; [|split; [reflexivity | by left]].
        etrans; [apply (IH2 Hin) | apply lookup_insert_eq].
      * intros Hk. etrans; [apply (IH2 Hin)|]. apply lookup_insert_ne.
        intros E. apply Hk. apply elem_of_cons. by left.
Qed.

Lemma resolveNode_known ns first k :
  k ∈ List.map id ns ->
  id (resolveNode (nodeById ns) first k) = k /\ resolveNode (nodeById ns) first k ∈ ns.
Proof.
  intros H. destruct (nodeById_fold ns ∅ k) as [H1 _].
  destruct (H1 H) as (n & Hl & Hid & Hn).
  assert (E : resolveNode (nodeById ns) first k = n)
    by exact (f_equal (fun o => orElse o first) Hl).
  by rewrite E.
Qed.

Lemma resolveNode_unknown ns first k :
  k ∉ List.map id ns -> resolveNode (nodeById ns) first k = first.
Proof.
  intros H. destruct (nodeById_fold ns ∅ k) as [_ H2].
  exact (f_equal (fun o => orElse o first) (eq_trans (H2 H) (lookup_empty k))).
Qed.

Lemma targets_are_node_ids ss :
  Forall (fun l => target l ∈ List.map id (b_nodes (buildGraph ss))) (b_links (buildGraph ss)).
Proof.
  destruct (buildGraph_spec ss) as (_ & _ & ->).
  apply Forall_forall. intros l Hl.
  change (List.map linkOf ss) with (linkOf <$> ss) in Hl.
  apply list_elem_of_fmap in Hl as (s & -> & Hs). simpl.
  apply elem_of_node_ids. destruct ss as [|s0 ss]; [by apply elem_of_nil in Hs|].
  simpl. right. by apply (elem_of_map_to s (s0 :: ss)).
Qed.

Lemma no_steps_no_nodes content :
  steps (parseResultCsv content) = [] -> nodes (parseResultCsv content) = [].
Proof.
  intros H. destruct (graph_unfold content) as [-> _]. by rewrite H.
Qed.

(** X21.  On a container of positive size, a parsed result with at least
    one node is handed to the simulation with all its nodes and one link
    object per link, in order and with the link's cost.  The target of each
    link object is the node with the link's target id.  Its source is the
    node with the link's source id when there is one, and the first node
    when there is none. *)
Theorem drawn_links_follow_the_graph (content : string) (c : Container) :
  0 < clientWidth c -> 0 < clientHeight c ->
  nodes (parseResultCsv content) <> [] ->
  let g := parseResultCsv content in
  exists first rest ls,
    nodes g = first :: rest
    /\ renderGraph (Some c) (Some g) = Drawn (clientWidth c) (clientHeight c) (nodes g) ls
    /\ Forall2 (fun l o =>
                  l_cost o = cost l
                  /\ id (l_target o) = target l /\ l_target o ∈ nodes g
                  /\ (source l ∈ List.map id (nodes g) ->
                      id (l_source o) = source l /\ l_source o ∈ nodes g)
                  /\ (source l ∉ List.map id (nodes g) -> l_source o = first))
               (links g) ls.
Proof.
  intros Hw Hh Hne g.
  destruct (nodes g) as [|first rest] eqn:En; [done|].
  exists first, rest, (linkObjects (nodes g) first (links g)).
  split; [reflexivity|]. split.
  { unfold renderGraph. rewrite En.
    destruct (Z.leb_spec (clientWidth c) 0); [lia|].
    destruct (Z.leb_spec (clientHeight c) 0); [lia|]. reflexivity. }
  rewrite <- En.
  assert (Ht : Forall (fun l => target l ∈ List.map id (nodes g)) (links g)).
  { destruct (graph_unfold content) as [Gn Gl]. fold g in Gn, Gl. rewrite Gn, Gl.
    apply targets_are_node_ids. }
  unfold linkObjects. induction Ht as [|l ls Hl _ IH]; simpl; constructor; [|exact IH].
  simpl. split; [reflexivity|].
  destruct (resolveNode_known (nodes g) first _ Hl) as [H1 H2].
  split; [exact H1|]. split; [exact H2|].
  split; [apply resolveNode_known | apply resolveNode_unknown].
Qed.

Lemma drawn_links_follow_the_graph_witness :
  exists ls,
    renderGraph (Some (mkContainer 800 600)) (Some (parseResultCsv exampleText))
    = Drawn 800 600 (nodes (parseResultCsv exampleText)) ls
    /\ length ls = 2%nat.
Proof.
  assert (Hw : 0 < clientWidth (mkContainer 800 600)) by reflexivity.
  assert (Hh : 0 < clientHeight (mkContainer 800 600)) by reflexivity.
  assert (Hn : nodes (parseResultCsv exampleText) <> []) by (vm_compute; discriminate).
  destruct (drawn_links_follow_the_graph exampleText (mkContainer 800 600) Hw Hh Hn)
    as (first & rest & ls & _ & Hr & Hf).
  exists ls. split; [exact Hr|].
  apply Forall2_length in Hf. rewrite <- Hf. vm_compute. reflexivity.
Defined.

(** X22.  A result without steps - fewer than two non-blank lines, or
    only dropped rows - is stored by the reader as graph data without
    nodes, and is never drawn: rendering it, directly or on a resize, only
    clears the container, or does nothing when there is no container. *)
Theorem result_without_steps_is_not_drawn (text : string) (w : World)
    (container : option Container) :
  steps (parseResultCsv text) = [] ->
  let cleared := match container with Some _ => Cleared | None => Untouched end in
  graphData (comp (readerOnload text w)) = Some (parseResultCsv text)
  /\ nodes (parseResultCsv text) = []
  /\ renderGraph container (Some (parseResultCsv text)) = cleared
  /\ onResize container (comp (readerOnload text w)) = cleared.
Proof.
  intros H cleared. pose proof (no_steps_no_nodes _ H) as Hn.
  split; [reflexivity|]. split; [exact Hn|].
  assert (E : renderGraph container (Some (parseResultCsv text)) = cleared).
  { subst cleared. unfold renderGraph. destruct container; [by rewrite Hn | reflexivity]. }
  split; [exact E|]. unfold onResize. simpl. exact E.
Qed.

Lemma result_without_steps_is_not_drawn_witness :
  onResize (Some (mkContainer 800 600))
    (comp (readerOnload "From_Sequence,To_Sequence,Transition_Cost" readyWorld))
  = Cleared.
Proof.
  destruct (result_without_steps_is_not_drawn "From_Sequence,To_Sequence,Transition_Cost"
              readyWorld (Some (mkContainer 800 600)) eq_refl) as (_ & _ & _ & H).
  exact H.
Defined.

(** X23.  Whatever the runtime offers, setting up the view attaches at
    most one resize hook - an observer when there is a container and
    [ResizeObserver] exists, else the window listener when there is a
    container and a window - and tearing it down in the same runtime leaves
    no observer, no observation and no listener. *)
Theorem teardown_detaches_the_hooks (rt : Runtime) :
  let up := ngAfterViewInit rt noHooks in
  ngOnDestroy rt up = noHooks
  /\ resizeObserver up = hasContainer rt && hasResizeObserver rt
  /\ observing up = (if hasContainer rt && hasResizeObserver rt then 1 else 0)%nat
  /\ windowListener up
     = hasContainer rt && negb (hasResizeObserver rt) && hasWindow rt.
Proof. by destruct rt as [[] [] []]. Qed.

End HandlerProperties.
